(** * Thin-film interference toolkit: embedding and verification

    Shallow embedding of the two scripts of the repository,

    - [doublebeam_epi_thickness.py] (class [EpilayerThicknessCalculator]),
    - [thin_film_multibeam_interference_sim.py] ([calculate_interference]),

    followed by the properties stated about them.

    Numbers.  Two embeddings are used.

    - [Np.float64]: a finite value is an exact real number (no rounding,
      no overflow, no underflow), and the IEEE 754 special values +inf,
      -inf and NaN are kept, because numpy produces them instead of
      raising: a division by zero or the square root of a negative number
      is a value, not an exception.  The sign of zero is not tracked.
      This embedding carries the statements about the structure of the
      computations (which quantities enter which result, what is stored
      and what is left alone) and the numeric values of the default
      scenario.

    - [B64.float]: the binary64 values with correctly rounded operations,
      Python integers of any size, and the OverflowError of an integer
      conversion or of a Python power.  This embedding carries the
      statements that are quantified over every input of the thickness
      calculator and over the angle sweep, where rounding, overflow and
      underflow decide the outcome. *)

From Stdlib Require Import Reals Lra Lia ZArith List Bool.
From Stdlib Require SpecFloat.
Import ListNotations.

Local Open Scope R_scope.

(* ================================================================== *)
(** * Python outcomes *)

Module Py.

(** The exceptions the modelled statements can raise. *)
Inductive exn : Type :=
| ZeroDivisionError
| ValueError
| TypeError
| OverflowError.

(** Outcome of a call: a returned value, or a raised exception that
    reaches the caller (nothing in the source catches anything). *)
Inductive result (A : Type) : Type :=
| Ok (v : A)
| Raise (e : exn).

Arguments Ok {A} v.
Arguments Raise {A} e.

Definition bind {A B} (r : result A) (f : A -> result B) : result B :=
  match r with
  | Ok v => f v
  | Raise e => Raise e
  end.

Definition raises {A} (r : result A) : Prop := exists e, r = Raise e.

End Py.

Notation "x <- r ;; k" := (Py.bind r (fun x => k))
  (at level 61, r at next level, right associativity).

(* ================================================================== *)
(** * Idealised float64 and the numpy functions used by the scripts *)

Module Np.

Inductive float64 : Type :=
| Num (x : R)        (* a finite value *)
| Inf (neg : bool)   (* +inf when [neg = false], -inf when [neg = true] *)
| NaN.

Definition Rltb (x y : R) : bool := if Rlt_dec x y then true else false.
Definition Rleb (x y : R) : bool := if Rle_dec x y then true else false.
Definition Reqb (x y : R) : bool := if Req_dec_T x y then true else false.

(** ** Arithmetic, following IEEE 754 on the special values *)

Definition neg (a : float64) : float64 :=
  match a with
  | Num x => Num (- x)
  | Inf s => Inf (negb s)
  | NaN => NaN
  end.

Definition add (a b : float64) : float64 :=
  match a, b with
  | Num x, Num y => Num (x + y)
  | Num _, Inf s => Inf s
  | Inf s, Num _ => Inf s
  | Inf s, Inf t => if Bool.eqb s t then Inf s else NaN
  | _, _ => NaN
  end.

Definition sub (a b : float64) : float64 := add a (neg b).

Definition mul (a b : float64) : float64 :=
  match a, b with
  | Num x, Num y => Num (x * y)
  | Num x, Inf s => if Reqb x 0 then NaN else Inf (xorb (Rltb x 0) s)
  | Inf s, Num y => if Reqb y 0 then NaN else Inf (xorb s (Rltb y 0))
  | Inf s, Inf t => Inf (xorb s t)
  | _, _ => NaN
  end.

(** numpy division: [x / 0] is an infinity for [x <> 0] and NaN for
    [x = 0]; nothing is raised. *)
Definition div (a b : float64) : float64 :=
  match a, b with
  | Num x, Num y =>
      if Reqb y 0
      then (if Reqb x 0 then NaN else Inf (Rltb x 0))
      else Num (x / y)
  | Num _, Inf _ => Num 0
  | Inf s, Num y => Inf (xorb s (Rltb y 0))
  | _, _ => NaN
  end.

(** [x ** n] for a natural exponent; [x ** 0] is 1 for every [x],
    NaN included, as in IEEE 754 pow. *)
Fixpoint pow (a : float64) (n : nat) : float64 :=
  match n with
  | O => Num 1
  | S n' => mul a (pow a n')
  end.

(** ** Comparisons: every comparison with NaN is false *)

Definition lt (a b : float64) : bool :=
  match a, b with
  | Num x, Num y => Rltb x y
  | Num _, Inf s => negb s
  | Inf s, Num _ => s
  | Inf s, Inf t => s && negb t
  | _, _ => false
  end.

Definition le (a b : float64) : bool :=
  match a, b with
  | Num x, Num y => Rleb x y
  | Num _, Inf s => negb s
  | Inf s, Num _ => s
  | Inf s, Inf t => s || negb t
  | _, _ => false
  end.

Definition gt (a b : float64) : bool := lt b a.

(** ** Elementary functions *)

Definition pi : float64 := Num PI.

(** [np.sqrt]: NaN (with a warning, not an exception) below zero. *)
Definition sqrt (a : float64) : float64 :=
  match a with
  | Num x => if Rltb x 0 then NaN else Num (R_sqrt.sqrt x)
  | Inf false => Inf false
  | _ => NaN
  end.

Definition sin (a : float64) : float64 :=
  match a with
  | Num x => Num (Rtrigo_def.sin x)
  | _ => NaN
  end.

Definition cos (a : float64) : float64 :=
  match a with
  | Num x => Num (Rtrigo_def.cos x)
  | _ => NaN
  end.

(** [np.tan]: sine over cosine; at a pole of the tangent the idealised
    value is the infinity the quotient gives. *)
Definition tan (a : float64) : float64 := div (sin a) (cos a).

(** [np.arcsin]: NaN outside [-1, 1]. *)
Definition arcsin (a : float64) : float64 :=
  match a with
  | Num x => if Rleb (-1) x && Rleb x 1 then Num (Ratan.asin x) else NaN
  | _ => NaN
  end.

(** [np.deg2rad x] is [x * (pi / 180)]. *)
Definition deg2rad (a : float64) : float64 := mul a (div pi (Num 180)).

(** [np.exp] on a real argument. *)
Definition exp (a : float64) : float64 :=
  match a with
  | Num x => Num (Rtrigo_def.exp x)
  | Inf false => Inf false
  | Inf true => Num 0
  | NaN => NaN
  end.

(** ** complex128: a pair (real part, imaginary part) *)

Definition complex : Type := (float64 * float64)%type.

(** A real operand met by a complex one is promoted to [x + 0j]. *)
Definition of_real (x : float64) : complex := (x, Num 0).

(** The literal [1j]. *)
Definition j : complex := (Num 0, Num 1).

Definition cadd (z w : complex) : complex :=
  (add (fst z) (fst w), add (snd z) (snd w)).

Definition cmul (z w : complex) : complex :=
  (sub (mul (fst z) (fst w)) (mul (snd z) (snd w)),
   add (mul (fst z) (snd w)) (mul (snd z) (fst w))).

(** [np.exp] on a complex argument: [e^re * (cos im + i sin im)]. *)
Definition cexp (z : complex) : complex :=
  (mul (exp (fst z)) (cos (snd z)), mul (exp (fst z)) (sin (snd z))).

(** [z ** n] for a natural exponent: a product of [n] factors. *)
Fixpoint cpow (z : complex) (n : nat) : complex :=
  match n with
  | O => (Num 1, Num 0)
  | S n' => cmul z (cpow z n')
  end.

(** [np.abs] on a complex number. *)
Definition cabs (z : complex) : float64 :=
  sqrt (add (mul (fst z) (fst z)) (mul (snd z) (snd z))).

(** [.sum()] of a row of complex numbers; the empty sum is 0. *)
Definition csum (row : list complex) : complex :=
  fold_right cadd (Num 0, Num 0) row.

(** ** Arrays: lists, with elementwise operations *)

Fixpoint zip_with {A B C} (f : A -> B -> C) (u : list A) (v : list B)
  : list C :=
  match u, v with
  | x :: u', y :: v' => f x y :: zip_with f u' v'
  | _, _ => []
  end.

(** Least integer not below [x]. *)
Definition ceil (x : R) : Z := (1 - up (- x))%Z.

Definition is_zero (a : float64) : bool :=
  match a with Num x => Reqb x 0 | _ => false end.

(** Division of two Python floats (not numpy scalars): dividing by
    zero raises. *)
Definition pydiv (a b : float64) : Py.result float64 :=
  if is_zero b then Py.Raise Py.ZeroDivisionError else Py.Ok (div a b).

(** [np.arange(start, stop, step)] on Python floats: the length is
    [ceil((stop - start) / step)], at least 0, and element [i] is
    [start + i * step].  A zero step raises ZeroDivisionError, a length
    that is NaN or infinite raises ValueError. *)
Definition arange (start stop step : float64) : Py.result (list float64) :=
  q <- pydiv (sub stop start) step ;;
  match q with
  | Num x =>
      Py.Ok (map (fun i : nat => add start (mul (Num (INR i)) step))
                 (seq 0 (Z.to_nat (ceil x))))
  | _ => Py.Raise Py.ValueError
  end.

(** [np.arange(lo, hi)] on Python ints with [0 <= lo]: the naturals
    [lo, lo + 1, ..., hi - 1], none when [hi <= lo]. *)
Definition arange_nat (lo : nat) (hi : Z) : list nat :=
  seq lo (Z.to_nat (hi - Z.of_nat lo)).

(** Magnitude of a real value. *)
Definition abs (a : float64) : float64 :=
  match a with
  | Num x => Num (Rabs x)
  | Inf _ => Inf false
  | NaN => NaN
  end.

(** Finite and strictly positive / strictly negative. *)
Definition positive (a : float64) : Prop :=
  match a with Num x => 0 < x | _ => False end.

Definition negative (a : float64) : Prop :=
  match a with Num x => x < 0 | _ => False end.

End Np.

Declare Scope np_scope.
Delimit Scope np_scope with np.
Bind Scope np_scope with Np.float64.
Infix "+" := Np.add : np_scope.
Infix "-" := Np.sub : np_scope.
Infix "*" := Np.mul : np_scope.
Infix "/" := Np.div : np_scope.
Notation "- x" := (Np.neg x) : np_scope.
Infix "**" := Np.pow (at level 30, right associativity) : np_scope.

Coercion Np.Num : R >-> Np.float64.

(* ================================================================== *)
(** * doublebeam_epi_thickness.py *)

Module Epi.
Import Np.
Local Open Scope np_scope.

(** The attributes of an [EpilayerThicknessCalculator] object.  The
    three result attributes are [None] until they are computed. *)
Record calculator : Type := mk {
  n1 : float64;
  n2 : float64;
  theta0_deg : float64;
  nu_tilde : float64;
  m : Z;
  cos_theta1 : float64;
  k : float64;
  d : option float64;
  d_dn1 : option float64;
  d_dnu : option float64
}.

(** [_calc_cos_theta1], on the two attributes it reads. *)
Definition _calc_cos_theta1 (self_n1 self_theta0_deg : float64) : float64 :=
  let theta0_rad := deg2rad self_theta0_deg in
  let sin_theta1 := sin theta0_rad / self_n1 in
  let cos_theta1 := sqrt (Num 1 - sin_theta1 ** 2) in
  cos_theta1.

(** [_calc_k], on the three attributes it reads. *)
Definition _calc_k (self_n1 self_n2 : float64) (self_m : Z) : float64 :=
  if gt self_n2 self_n1
  then Num (IZR self_m)
  else Num (IZR self_m - 0.5).

Definition __init__ (n1 n2 theta0_deg nu_tilde : float64) (m : Z)
  : calculator :=
  {| n1 := n1; n2 := n2; theta0_deg := theta0_deg;
     nu_tilde := nu_tilde; m := m;
     cos_theta1 := _calc_cos_theta1 n1 theta0_deg;
     k := _calc_k n1 n2 m;
     d := None; d_dn1 := None; d_dnu := None |}.

(** Attribute assignments [self.d = v], [self.d_dn1 = v], [self.d_dnu = v]. *)
Definition set_d (self : calculator) (v : float64) : calculator :=
  {| n1 := n1 self; n2 := n2 self; theta0_deg := theta0_deg self;
     nu_tilde := nu_tilde self; m := m self;
     cos_theta1 := cos_theta1 self; k := k self;
     d := Some v; d_dn1 := d_dn1 self; d_dnu := d_dnu self |}.

Definition set_d_dn1 (self : calculator) (v : float64) : calculator :=
  {| n1 := n1 self; n2 := n2 self; theta0_deg := theta0_deg self;
     nu_tilde := nu_tilde self; m := m self;
     cos_theta1 := cos_theta1 self; k := k self;
     d := d self; d_dn1 := Some v; d_dnu := d_dnu self |}.

Definition set_d_dnu (self : calculator) (v : float64) : calculator :=
  {| n1 := n1 self; n2 := n2 self; theta0_deg := theta0_deg self;
     nu_tilde := nu_tilde self; m := m self;
     cos_theta1 := cos_theta1 self; k := k self;
     d := d self; d_dn1 := d_dn1 self; d_dnu := Some v |}.

(** A method returns the object after the call and the returned value. *)
Definition calculate_thickness (self : calculator) : calculator * float64 :=
  let v := k self / (Num 2 * n1 self * cos_theta1 self * nu_tilde self) in
  (set_d self v, v).

Definition calculate_sensitivity (self : calculator)
  : calculator * (float64 * float64) :=
  let v1 :=
    - k self
    / (Num 2 * nu_tilde self * n1 self ** 2 * cos_theta1 self ** 3) in
  let self := set_d_dn1 self v1 in
  let v2 :=
    - k self
    / (Num 2 * n1 self * cos_theta1 self * nu_tilde self ** 2) in
  let self := set_d_dnu self v2 in
  (self, (v1, v2)).

Definition is_None {A} (o : option A) : bool :=
  match o with None => true | Some _ => false end.

(** [print_results]: the console output is represented by the list of
    attribute values interpolated into the printed lines, in order
    ([d], [d_dn1], [d_dnu], [n2], [n1], [k], [cos_theta1], [nu_tilde]);
    the constant text is left out. *)
Definition print_results (self : calculator)
  : calculator * list (option float64) :=
  let self :=
    if is_None (d self) || is_None (d_dn1 self) || is_None (d_dnu self)
    then
      let self := fst (calculate_thickness self) in
      let self := fst (calculate_sensitivity self) in
      self
    else self in
  (self, [d self; d_dn1 self; d_dnu self;
          Some (n2 self); Some (n1 self); Some (k self);
          Some (cos_theta1 self); Some (nu_tilde self)]).

(** [plot_sensitivity], without the plotting: the thickness is computed
    first when it is missing; the two curves are local lists; formatting
    a sensitivity that is still [None] into a plot title raises
    TypeError. *)
Definition plot_sensitivity (self : calculator)
  : calculator * Py.result unit :=
  let self :=
    if is_None (d self) then fst (calculate_thickness self) else self in
  (self,
   if is_None (d_dn1 self) || is_None (d_dnu self)
   then Py.Raise Py.TypeError
   else Py.Ok tt).

(** What the caller of [EpilayerThicknessCalculator(...)] followed by
    [.calculate_thickness()] observes.  No statement on this path can
    raise for numeric arguments: the division and the square root are
    numpy scalar operations, which produce inf or NaN. *)
Definition compute_thickness (n1 n2 theta0_deg nu_tilde : float64) (m : Z)
  : Py.result float64 :=
  Py.Ok (snd (calculate_thickness (__init__ n1 n2 theta0_deg nu_tilde m))).

(** The radicand of the refraction cosine, [1 - sin_theta1 ** 2]. *)
Definition radicand (self_n1 self_theta0_deg : float64) : float64 :=
  Num 1 - (sin (deg2rad self_theta0_deg) / self_n1) ** 2.

(** The attributes assigned in [__init__] before the result attributes:
    the five inputs and the two values derived from them. *)
Definition fixed_attributes (self : calculator)
  : float64 * float64 * float64 * float64 * Z * float64 * float64 :=
  (n1 self, n2 self, theta0_deg self, nu_tilde self, m self,
   cos_theta1 self, k self).

(** The object built by the default arguments
    [n1=2.65, n2=2.68, theta0_deg=15, nu_tilde=1000, m=1]. *)
Definition default_calculator : calculator :=
  __init__ (Num 2.65) (Num 2.68) (Num 15) (Num 1000) 1%Z.

(** The refraction cosine of the default object, as a real number. *)
Definition default_cos : R :=
  R_sqrt.sqrt (1 - (Rtrigo_def.sin (15 * (PI / 180)) / 2.65) ^ 2).

End Epi.

(* ================================================================== *)
(** * thin_film_multibeam_interference_sim.py *)

Module Sim.
Import Np.
Local Open Scope np_scope.

(** ** Module-level parameter settings *)

Definition N : Z := 15.
Definition lambda_ : float64 := Num 500.
Definition n : float64 := Num 10.
Definition h : float64 := Num 25000.
Definition Ai : float64 := Num 1.
Definition a : float64 := Num 25 * pi / Num 180.
Definition theta_max : float64 := pi / Num 3.
Definition delta_theta : float64 := Num 0.001.
Definition fixed_incident_angle : float64 := Num 15 * pi / Num 180.

(** Amplitudes of s-wave and p-wave in incident light (module level). *)
Definition Asi : float64 := Ai * sin a.
Definition Api : float64 := Ai * cos a.

(** ** Fresnel formulas; [P] reads the module-level [a] *)

Definition P (rs rp : float64) : float64 :=
  (rs * sin a) ** 2 + (rp * cos a) ** 2.

Definition Rs (i r : float64) : float64 := - sin (i - r) / sin (i + r).

Definition Rp (i r : float64) : float64 := tan (i - r) / tan (i + r).

Definition Ts (i r : float64) : float64 :=
  Num 2 * sin r * cos i / sin (i + r).

Definition Tp (i r : float64) : float64 :=
  Num 2 * sin r * cos i / (sin (i + r) * cos (i - r)).

(** The six arrays returned by [calculate_interference]. *)
Record outputs : Type := mk_outputs {
  i1 : list float64;
  It_1 : list float64;
  It_2 : list float64;
  s_amplitudes : list float64;
  p_amplitudes : list float64;
  orders : list nat
}.

(** [calculate_interference].  The parameters shadow the module-level
    names of the same spelling, as in the source; [Asi], [Api] and the
    [a] inside [P] are the module-level ones.  A real array multiplied
    by a complex one is promoted elementwise ([of_real]). *)
Definition calculate_interference
    (N : Z) (lambda_ n h Ai a theta_max delta_theta fixed_angle : float64)
  : Py.result outputs :=
  i1 <- arange (- theta_max) (theta_max + delta_theta) delta_theta ;;
  let r1 := map (fun x => arcsin (x / n)) (map sin i1) in
  c <- pydiv (Num 4 * pi) lambda_ ;;
  let delta := map (fun x => c * n * h * x) (map cos r1) in
  let As := zip_with mul (map (mul Asi) (zip_with Ts i1 r1))
                     (zip_with Ts r1 i1) in
  let Ap := zip_with mul (map (mul Api) (zip_with Tp i1 r1))
                     (zip_with Tp r1 i1) in
  let powers := arange_nat 0 N in
  let rs_pows :=
    map (fun x => map (fun p => x ** (2 * p)) powers) (zip_with Rs r1 i1) in
  let rp_pows :=
    map (fun x => map (fun p => x ** (2 * p)) powers) (zip_with Rp r1 i1) in
  let exp_terms :=
    map (fun z => map (fun p => cpow z p) powers)
        (map (fun x => cexp (cmul j (of_real x))) delta) in
  let Ast :=
    zip_with (zip_with (fun x z => cmul (of_real x) z))
             (zip_with (fun x row => map (mul x) row) As rs_pows)
             exp_terms in
  let Apt :=
    zip_with (zip_with (fun x z => cmul (of_real x) z))
             (zip_with (fun x row => map (mul x) row) Ap rp_pows)
             exp_terms in
  let It_1 :=
    zip_with add (map (fun row => cabs (csum row) ** 2) Ast)
                 (map (fun row => cabs (csum row) ** 2) Apt) in
  let rs_vals := zip_with Rs i1 r1 in
  let rp_vals := zip_with Rp i1 r1 in
  let p := zip_with P rs_vals rp_vals in
  let It_2 :=
    zip_with (fun p dl =>
                (Num 1 - p) ** 2
                / ((Num 1 - p) ** 2 + Num 4 * p * sin (dl / Num 2) ** 2)
                * Ai ** 2) p delta in
  let ii := fixed_angle in
  let r := arcsin (sin ii / n) in
  let As_dir := Asi * Ts ii r * Ts r ii in
  let Ap_dir := Api * Tp ii r * Tp r ii in
  let orders := arange_nat 1 (N + 1) in
  let s_amplitudes :=
    map (fun o => As_dir * (Rs ii r ** 2) ** (o - 1)) orders in
  let p_amplitudes :=
    map (fun o => Ap_dir * (Rp ii r ** 2) ** (o - 1)) orders in
  Py.Ok {| i1 := i1; It_1 := It_1; It_2 := It_2;
           s_amplitudes := s_amplitudes; p_amplitudes := p_amplitudes;
           orders := orders |}.

(** ** Quantities named by the specification *)

(** Refraction angle at incidence [x] (Snell's law). *)
Definition refraction (n x : float64) : float64 := arcsin (sin x / n).

(** Phase factor [exp(i * delta)] at incidence [x], where [c] is the
    quotient [4 * pi / lambda_]. *)
Definition phase_factor (c n h x : float64) : complex :=
  cexp (cmul j (of_real (c * n * h * cos (refraction n x)))).

(** Contribution of one beam order: amplitude [A], reflection
    coefficient [R], phase factor [z]:
    [A * (R^2)^order * z^order]. *)
Definition order_term (A R : float64) (z : complex) (order : nat)
  : complex :=
  cmul (of_real (A * (R ** 2) ** order)) (cpow z order).

(** Squared magnitude of the sum of the contributions of orders
    [0 .. N-1]. *)
Definition summed_intensity (N : Z) (A R : float64) (z : complex)
  : float64 :=
  cabs (csum (map (order_term A R z) (arange_nat 0 N))) ** 2.

(** Intensity at incidence [x] where the amplitude of a polarization is
    its incident component times the product of the transmission
    coefficients into and out of the film, [T(x, r) * T(r, x)]. *)
Definition intensity_at (N : Z) (c n h x : float64) : float64 :=
  let r := refraction n x in
  let z := phase_factor c n h x in
  summed_intensity N (Asi * Ts x r * Ts r x) (Rs r x) z
  + summed_intensity N (Api * Tp x r * Tp r x) (Rp r x) z.

(** Intensity at incidence [x] in the words of the specification: the
    amplitude of a polarization is its incident component times the
    square of the first-pass transmission coefficient, [T(x, r)^2]. *)
Definition intensity_as_stated (N : Z) (c n h x : float64) : float64 :=
  let r := refraction n x in
  let z := phase_factor c n h x in
  summed_intensity N (Asi * Ts x r ** 2) (Rs r x) z
  + summed_intensity N (Api * Tp x r ** 2) (Rp r x) z.

(** Direct (first-order) amplitudes and squared reflectances at the
    fixed angle. *)
Definition direct_s (n ii : float64) : float64 :=
  Asi * Ts ii (refraction n ii) * Ts (refraction n ii) ii.

Definition direct_p (n ii : float64) : float64 :=
  Api * Tp ii (refraction n ii) * Tp (refraction n ii) ii.

Definition reflectance2_s (n ii : float64) : float64 :=
  Rs ii (refraction n ii) ** 2.

Definition reflectance2_p (n ii : float64) : float64 :=
  Rp ii (refraction n ii) ** 2.


End Sim.

(* ================================================================== *)
(** * The rest of the two scripts *)

Module EpiCurves.
Import Np Epi.
Local Open Scope np_scope.

(** [np.linspace(start, stop, num)] with the default [endpoint=True]:
    [num] samples, sample [i] is [i * step + start] with
    [step = (stop - start) / (num - 1)], and the last sample is set to
    [stop] itself.  A single sample is [start]. *)
Definition linspace (start stop : float64) (num : nat) : list float64 :=
  match num with
  | O => []
  | S O => [Num 0 * (stop - start) + start]
  | S num' =>
      let step := (stop - start) / Num (INR num') in
      map (fun i : nat => Num (INR i) * step + start) (seq 0 num') ++ [stop]
  end.

(** The two parameter ranges swept by [plot_sensitivity]. *)
Definition n1_range (self : calculator) : list float64 :=
  linspace (n1 self - Num 0.1) (n1 self + Num 0.1) 50.

Definition nu_range (self : calculator) : list float64 :=
  linspace (nu_tilde self - Num 50) (nu_tilde self + Num 50) 50.

(** Body of the loop [for n1 in n1_range] of [plot_sensitivity]: the
    cosine and [k] are computed again for the current [n1]. *)
Definition thickness_for_n1 (self : calculator) (n1 : float64) : float64 :=
  let theta0_rad := deg2rad (theta0_deg self) in
  let sin_theta1 := sin theta0_rad / n1 in
  let cos_theta1 := sqrt (Num 1 - sin_theta1 ** 2) in
  let k := if gt (n2 self) n1
           then Num (IZR (m self))
           else Num (IZR (m self) - 0.5) in
  let d := k / (Num 2 * n1 * cos_theta1 * nu_tilde self) in
  d.

Definition d_n1_range (self : calculator) : list float64 :=
  map (thickness_for_n1 self) (n1_range self).

(** The comprehension [[k / (2 * n1 * cos_theta1 * nu) for nu in nu_range]]:
    the stored [cos_theta1] and [k] are used again. *)
Definition d_nu_range (self : calculator) : list float64 :=
  map (fun nu => k self / (Num 2 * n1 self * cos_theta1 self * nu))
      (nu_range self).

(** The calls a client can make on an object. *)
Inductive method : Type :=
| Calculate_thickness
| Calculate_sensitivity
| Print_results
| Plot_sensitivity.

Definition call (mth : method) (self : calculator) : calculator :=
  match mth with
  | Calculate_thickness => fst (calculate_thickness self)
  | Calculate_sensitivity => fst (calculate_sensitivity self)
  | Print_results => fst (print_results self)
  | Plot_sensitivity => fst (plot_sensitivity self)
  end.

(** The object after a sequence of calls, first call first. *)
Definition run (calls : list method) (self : calculator) : calculator :=
  fold_left (fun s mth => call mth s) calls self.

(** The three results an object can hold, as the methods compute them
    from the attributes fixed at construction. *)
Definition thickness_of (self : calculator) : float64 :=
  snd (calculate_thickness self).

Definition sensitivities_of (self : calculator) : float64 * float64 :=
  snd (calculate_sensitivity self).

(** An object whose result attributes are either still [None] or hold the
    value the methods compute from its other attributes. *)
Definition up_to_date (self : calculator) : Prop :=
  (d self = None \/ d self = Some (thickness_of self))
  /\ (d_dn1 self = None \/ d_dn1 self = Some (fst (sensitivities_of self)))
  /\ (d_dnu self = None \/ d_dnu self = Some (snd (sensitivities_of self))).

(** The thickness formula on real numbers, for an index [x], a sine of
    the incidence angle [s], a wavenumber [v] and an order term [kr]. *)
Definition thickness_real (kr x s v : R) : R :=
  kr / (2 * x * R_sqrt.sqrt (1 - (s / x) ^ 2) * v).

(** The right-hand sides of lines 80 and 82 on real numbers, the cosine
    being the one of Snell's law for the index [x]. *)
Definition d_dn1_real (kr x s v : R) : R :=
  - kr / (2 * v * x ^ 2 * R_sqrt.sqrt (1 - (s / x) ^ 2) ^ 3).

Definition d_dnu_real (kr x s v : R) : R :=
  - kr / (2 * x * R_sqrt.sqrt (1 - (s / x) ^ 2) * v ^ 2).

End EpiCurves.

Module SimClosed.
Import Np Sim.
Local Open Scope np_scope.

(** One element of [It_2]: the textbook formula at incidence [x], where
    [c] is the quotient [4 * pi / lambda_]. *)
Definition closed_form_at (c n h Ai x : float64) : float64 :=
  let r := refraction n x in
  let dl := c * n * h * cos r in
  let p := P (Rs x r) (Rp x r) in
  (Num 1 - p) ** 2
  / ((Num 1 - p) ** 2 + Num 4 * p * sin (dl / Num 2) ** 2)
  * Ai ** 2.

(** A value that is not negative: a finite non-negative number, +inf,
    or NaN. *)
Definition not_negative (a : float64) : Prop :=
  match a with
  | Num x => 0 <= x
  | Inf s => s = false
  | NaN => True
  end.

End SimClosed.

(* ================================================================== *)
(** * The same programs in binary64 *)

(** ** binary64 arithmetic *)

(** The doubles of IEEE 754 (53-bit significand, largest exponent 1023),
    with the correctly rounded operations of the standard library's
    [SpecFloat]: a value is a signed zero, a signed infinity, NaN, or
    [S754_finite s m e] standing for (-1)^s * m * 2^e. *)

Module B64.
Import SpecFloat.

Definition prec : Z := 53.
Definition emax : Z := 1024.

Definition float : Type := spec_float.

Definition zero : float := S754_zero false.
Definition inf : float := S754_infinity false.
Definition nan : float := S754_nan.

Definition neg (x : float) : float := SFopp x.
Definition add (x y : float) : float := SFadd prec emax x y.
Definition sub (x y : float) : float := SFsub prec emax x y.
Definition mul (x y : float) : float := SFmul prec emax x y.
Definition div (x y : float) : float := SFdiv prec emax x y.
Definition sqrt (x : float) : float := SFsqrt prec emax x.

Definition lt (x y : float) : bool := SFltb x y.
Definition le (x y : float) : bool := SFleb x y.
Definition gt (x y : float) : bool := SFltb y x.
Definition eqb (x y : float) : bool := SFeqb x y.


Definition is_inf (x : float) : bool :=
  match x with S754_infinity _ => true | _ => false end.

Definition is_zero (x : float) : bool :=
  match x with S754_zero _ => true | _ => false end.

Definition is_finite (x : float) : bool :=
  match x with S754_zero _ | S754_finite _ _ _ => true | _ => false end.

(** The double nearest to the integer [z] (ties to even), an infinity
    beyond the range. *)
Definition of_Z (z : Z) : float := binary_normalize prec emax z 0 false.

(** The double nearest to [z * 10^e], as a decimal literal denotes it;
    for a negative [e] the quotient of two exactly represented integers,
    which is correctly rounded when [z] and [10^(-e)] are below 2^53. *)
Definition dec (z e : Z) : float :=
  match e with
  | Zneg p => div (of_Z z) (of_Z (10 ^ Zpos p))
  | _ => of_Z (z * 10 ^ e)
  end.

(** [is_dyadic x a p]: the double [x] is a number and its value is
    exactly [a * 2^p]. *)
Definition is_dyadic (x : float) (a p : Z) : bool :=
  match x with
  | S754_zero _ => (a =? 0)%Z
  | S754_finite s m e =>
      let n := if s then Zneg m else Zpos m in
      let l := Z.min e p in
      (n * 2 ^ (e - l) =? a * 2 ^ (p - l))%Z
  | _ => false
  end.

(** [shl r a] is [r * 2^a] for [a >= 0]. *)
Definition shl (r : positive) (a : Z) : positive :=
  match a with
  | Zpos k => Pos.iter xO r k
  | _ => r
  end.

(** [x ** n] for a positive integer exponent: the correctly rounded
    power.  The C library's [pow], which Python and numpy call, may
    differ from it in the last place. *)
Definition pow (x : float) (n : positive) : float :=
  match x with
  | S754_finite s m e =>
      binary_round_aux prec emax
        (s && Z.odd (Zpos n)) (Zpos (m ^ n)) (Zpos n * e) loc_Exact
  | S754_zero s => S754_zero (s && Z.odd (Zpos n))
  | S754_infinity s => S754_infinity (s && Z.odd (Zpos n))
  | S754_nan => S754_nan
  end.

(** [math.ceil] of a finite double, as an integer. *)
Definition ceil (x : float) : option Z :=
  match x with
  | S754_zero _ => Some 0%Z
  | S754_finite s m e =>
      let n := if s then Zneg m else Zpos m in
      Some (match e with
            | Zneg p => (- ((- n) / 2 ^ Zpos p))%Z
            | _ => (n * 2 ^ e)%Z
            end)
  | _ => None
  end.

(** The double 0x400921FB54442D18 that [np.pi] and [math.pi] hold. *)
Definition pi : float := S754_finite false 7074237752028440 (-51).

(** [np.deg2rad(x)]: the product of [x] and the constant pi/180. *)
Definition deg2rad (x : float) : float := mul x (div pi (of_Z 180)).

(** *** Signs *)

(** [has_sign s x]: [x] is a number (not NaN) whose sign bit is [s]; with
    [s = false] it is +0.0, a positive double or +inf. *)
Definition has_sign (s : bool) (x : float) : bool :=
  match x with
  | S754_nan => false
  | S754_zero t | S754_infinity t | S754_finite t _ _ => Bool.eqb t s
  end.


(** A positive double: finite, not zero. *)
Definition positive_finite (x : float) : bool :=
  match x with
  | S754_finite false _ _ => true
  | _ => false
  end.

(** *** Python numbers and the operations that can raise *)

(** A Python number: an [int] of any size, or a [float]. *)
Inductive number : Type :=
| Int (z : Z)
| Float (x : float).

(** Conversion of a number to a double, as [float(z)] and the mixed
    operators do it: an [int] beyond the range raises. *)
Definition as_float (n : number) : Py.result float :=
  match n with
  | Int z =>
      let f := of_Z z in
      if is_inf f then Py.Raise Py.OverflowError else Py.Ok f
  | Float x => Py.Ok x
  end.

Definition py_neg (n : number) : number :=
  match n with
  | Int z => Int (- z)
  | Float x => Float (neg x)
  end.

(** [x ** n] on a Python [float]: an overflow raises. *)
Definition py_pow (x : float) (n : positive) : Py.result float :=
  let r := pow x n in
  if is_finite x && is_inf r then Py.Raise Py.OverflowError else Py.Ok r.

(** *** [np.arange] on doubles *)

(** The length is the ceiling of the double quotient
    [(stop - start) / step], a Python division, which raises for a zero
    step.  A length that is NaN or outside the index range raises
    [ValueError] (the bounds are compared as doubles, so 2^63 itself
    passes and its conversion wraps to a negative length).  When the
    quotient of a non-zero difference is a zero (underflow, or an
    infinite step) the length is 1 for +0.0 and 0 for -0.0.  A length
    that is not positive gives the empty array.  The first two elements
    are [start] and [start + step]; element [i >= 2] is
    [start + i * ((start + step) - start)].  The memory of the machine is
    not modelled: a returned list stands for an array that could be
    allocated. *)
Definition arange_length (start stop step : float) : Py.result nat :=
  let next := sub stop start in
  if is_zero step then Py.Raise Py.ZeroDivisionError
  else
    let val := div next step in
    match ceil val with
    | Some n =>
        if ((n <? - 2 ^ 63) || (2 ^ 63 <? n))%Z then Py.Raise Py.ValueError
        else if is_zero val && negb (is_zero next)
        then Py.Ok (if has_sign true val then O else 1%nat)
        else Py.Ok (if (n =? 2 ^ 63)%Z then O else Z.to_nat n)
    | None => Py.Raise Py.ValueError
    end.

Definition arange_fill (start next : float) (len : nat) : list float :=
  match len with
  | O => []
  | S O => [start]
  | S (S r) =>
      start :: next ::
      map (fun i : nat => add start (mul (of_Z (Z.of_nat i)) (sub next start)))
          (seq 2 r)
  end.

Definition arange (start stop step : float) : Py.result (list float) :=
  len <- arange_length start stop step ;;
  Py.Ok (arange_fill start (add start step) len).

End B64.

(** ** doublebeam_epi_thickness.py in binary64 *)

(** The class again, with every operation rounded as the program rounds
    it and with the two ways it can raise: the conversion of a huge
    [int] and the overflow of a Python [**].  [n1], [n2], [theta0_deg]
    and [nu_tilde] are doubles (an [int] argument of ordinary size
    behaves as the double of the same value), [m] is a Python [int].
    [np.sin] is the C library's sine, whose rounding no standard fixes:
    it is an argument [np_sin] of the constructor. *)

Module Epi64.
Import SpecFloat B64.

Record calculator : Type := mk {
  n1 : float;
  n2 : float;
  theta0_deg : float;
  nu_tilde : float;
  m : Z;
  cos_theta1 : float;
  k : number;
  d : option float;
  d_dn1 : option float;
  d_dnu : option float
}.

Definition radicand (np_sin : float -> float) (self_n1 self_theta0_deg : float)
  : float :=
  let theta0_rad := deg2rad self_theta0_deg in
  let sin_theta1 := div (np_sin theta0_rad) self_n1 in
  sub (of_Z 1) (pow sin_theta1 2).

Definition _calc_cos_theta1 (np_sin : float -> float)
    (self_n1 self_theta0_deg : float) : float :=
  sqrt (radicand np_sin self_n1 self_theta0_deg).

Definition _calc_k (self_n1 self_n2 : float) (self_m : Z) : Py.result number :=
  if gt self_n2 self_n1 then Py.Ok (Int self_m)
  else
    f <- as_float (Int self_m) ;;
    Py.Ok (Float (sub f (dec 5 (-1)))).

Definition __init__ (np_sin : float -> float)
    (n1 n2 theta0_deg nu_tilde : float) (m : Z) : Py.result calculator :=
  let c := _calc_cos_theta1 np_sin n1 theta0_deg in
  k <- _calc_k n1 n2 m ;;
  Py.Ok (mk n1 n2 theta0_deg nu_tilde m c k None None None).

Definition set_d (self : calculator) (v : float) : calculator :=
  mk (n1 self) (n2 self) (theta0_deg self) (nu_tilde self) (m self)
     (cos_theta1 self) (k self) (Some v) (d_dn1 self) (d_dnu self).

Definition set_d_dn1 (self : calculator) (v : float) : calculator :=
  mk (n1 self) (n2 self) (theta0_deg self) (nu_tilde self) (m self)
     (cos_theta1 self) (k self) (d self) (Some v) (d_dnu self).

Definition set_d_dnu (self : calculator) (v : float) : calculator :=
  mk (n1 self) (n2 self) (theta0_deg self) (nu_tilde self) (m self)
     (cos_theta1 self) (k self) (d self) (d_dn1 self) (Some v).

(** The right-hand side of line 71. *)
Definition thickness_value (self : calculator) : Py.result float :=
  let den :=
    mul (mul (mul (of_Z 2) (n1 self)) (cos_theta1 self)) (nu_tilde self) in
  kf <- as_float (k self) ;;
  Py.Ok (div kf den).

Definition calculate_thickness (self : calculator)
  : calculator * Py.result float :=
  match thickness_value self with
  | Py.Ok v => (set_d self v, Py.Ok v)
  | Py.Raise e => (self, Py.Raise e)
  end.

(** The right-hand sides of lines 80 and 82. *)
Definition d_dn1_value (self : calculator) : Py.result float :=
  p <- py_pow (n1 self) 2 ;;
  let den :=
    mul (mul (mul (of_Z 2) (nu_tilde self)) p) (pow (cos_theta1 self) 3) in
  kf <- as_float (py_neg (k self)) ;;
  Py.Ok (div kf den).

Definition d_dnu_value (self : calculator) : Py.result float :=
  q <- py_pow (nu_tilde self) 2 ;;
  let den :=
    mul (mul (mul (of_Z 2) (n1 self)) (cos_theta1 self)) q in
  kf <- as_float (py_neg (k self)) ;;
  Py.Ok (div kf den).

(** An exception at line 82 leaves the assignment of line 80 in place. *)
Definition calculate_sensitivity (self : calculator)
  : calculator * Py.result (float * float) :=
  match d_dn1_value self with
  | Py.Raise e => (self, Py.Raise e)
  | Py.Ok v1 =>
      let self1 := set_d_dn1 self v1 in
      match d_dnu_value self1 with
      | Py.Raise e => (self1, Py.Raise e)
      | Py.Ok v2 => (set_d_dnu self1 v2, Py.Ok (v1, v2))
      end
  end.

(** Construction followed by [calculate_thickness], as a caller sees it. *)
Definition compute_thickness (np_sin : float -> float)
    (n1 n2 theta0_deg nu_tilde : float) (m : Z) : Py.result float :=
  self <- __init__ np_sin n1 n2 theta0_deg nu_tilde m ;;
  snd (calculate_thickness self).

(** Two values of the sine that do not depend on the C library: the sine
    of a zero is that zero, and the sine of [deg2rad 90] (the double
    nearest to pi/2) is 1.0.  NaN stands for an argument outside this
    table. *)
Definition sin_known (x : float) : float :=
  match x with
  | S754_zero s => S754_zero s
  | _ => if eqb x (deg2rad (of_Z 90)) then of_Z 1 else S754_nan
  end.

End Epi64.

(** ** The angle sweep of thin_film_multibeam_interference_sim.py in binary64 *)

Module Sim64.
Import SpecFloat B64.

(** Line 55: [np.arange(-theta_max, theta_max + delta_theta, delta_theta)]. *)
Definition sweep (theta_max delta_theta : float) : Py.result (list float) :=
  arange (neg theta_max) (add theta_max delta_theta) delta_theta.

(** The module-level settings of lines 17 and 18. *)
Definition theta_max : float := div pi (of_Z 3).
Definition delta_theta : float := dec 1 (-3).

End Sim64.

(* ================================================================== *)
(** * Properties *)

(** ** Facts about the idealised numbers *)

Section NpFacts.
Import Np.

Lemma Reqb_true x y : x = y -> Reqb x y = true.
Proof. intros H. unfold Reqb. destruct (Req_dec_T x y); congruence. Qed.

Lemma Reqb_false x y : x <> y -> Reqb x y = false.
Proof. intros H. unfold Reqb. destruct (Req_dec_T x y); congruence. Qed.

Lemma Rltb_true x y : x < y -> Rltb x y = true.
Proof. intros H. unfold Rltb. destruct (Rlt_dec x y); [reflexivity | lra]. Qed.

Lemma Rltb_false x y : y <= x -> Rltb x y = false.
Proof. intros H. unfold Rltb. destruct (Rlt_dec x y); [lra | reflexivity]. Qed.

Lemma Rleb_true x y : x <= y -> Rleb x y = true.
Proof. intros H. unfold Rleb. destruct (Rle_dec x y); [reflexivity | lra]. Qed.


Lemma div_Num x y : y <> 0 -> div (Num x) (Num y) = Num (x / y).
Proof. intros H. unfold div. now rewrite (Reqb_false _ _ H). Qed.

Lemma sqrt_Num x : 0 <= x -> sqrt (Num x) = Num (R_sqrt.sqrt x).
Proof. intros H. unfold sqrt. now rewrite (Rltb_false _ _ H). Qed.

Lemma deg2rad_Num t : deg2rad (Num t) = Num (t * (PI / 180)).
Proof. unfold deg2rad, pi. rewrite div_Num by lra. reflexivity. Qed.

Lemma pow_Num x n : pow (Num x) n = Num (x ^ n).
Proof. induction n as [|n IH]; simpl; [reflexivity | now rewrite IH]. Qed.

Lemma mul_NaN_r a : mul a NaN = NaN.
Proof. now destruct a. Qed.

Lemma div_NaN_r a : div a NaN = NaN.
Proof. now destruct a. Qed.

End NpFacts.

(** ** The thickness calculator *)

Section EpiFacts.
Import Np Epi.

(** The refraction cosine on finite inputs whose radicand is not
    negative. *)
Lemma calc_cos_theta1_Num (x t : R) :
  x <> 0 ->
  (Rtrigo_def.sin (t * (PI / 180)) / x) ^ 2 <= 1 ->
  _calc_cos_theta1 (Num x) (Num t)
  = Num (R_sqrt.sqrt (1 - (Rtrigo_def.sin (t * (PI / 180)) / x) ^ 2)).
Proof.
  intros Hx Hr. unfold _calc_cos_theta1.
  rewrite deg2rad_Num. simpl sin. rewrite div_Num by assumption.
  rewrite pow_Num. unfold sub; simpl neg; simpl add.
  rewrite sqrt_Num by lra. reflexivity.
Qed.

(** The thickness the code computes, as a formula on real numbers. *)
Lemma calculate_thickness_Num (self : calculator) (kr x c v : R) :
  k self = Num kr -> n1 self = Num x -> cos_theta1 self = Num c ->
  nu_tilde self = Num v -> 2 * x * c * v <> 0 ->
  snd (calculate_thickness self) = Num (kr / (2 * x * c * v)).
Proof.
  intros Hk Hn Hc Hv Hd. unfold calculate_thickness; simpl.
  rewrite Hk, Hn, Hc, Hv. simpl mul. now rewrite div_Num.
Qed.

Lemma sensitivity_signs (self : calculator) :
  positive (k self) -> positive (n1 self) ->
  positive (cos_theta1 self) -> positive (nu_tilde self) ->
  negative (fst (snd (calculate_sensitivity self)))
  /\ negative (snd (snd (calculate_sensitivity self))).
Proof.
  unfold calculate_sensitivity; simpl.
  destruct (k self) as [kr| |]; try contradiction.
  destruct (n1 self) as [x| |]; try contradiction.
  destruct (cos_theta1 self) as [c| |]; try contradiction.
  destruct (nu_tilde self) as [v| |]; try contradiction.
  simpl positive. intros Hk Hx Hc Hv.
  assert (Hx2 : 0 < x * (x * 1)) by nra.
  assert (Hc3 : 0 < c * (c * (c * 1))).
  { repeat apply Rmult_lt_0_compat; lra. }
  assert (Hv2 : 0 < v * (v * 1)) by nra.
  assert (D1 : 0 < 2 * v * (x * (x * 1)) * (c * (c * (c * 1)))).
  { repeat apply Rmult_lt_0_compat; lra. }
  assert (D2 : 0 < 2 * x * c * (v * (v * 1))).
  { repeat apply Rmult_lt_0_compat; lra. }
  simpl mul. simpl neg. rewrite !div_Num by lra. simpl negative.
  split.
  - apply Ropp_lt_cancel. rewrite Ropp_0.
    replace (- (- kr / (2 * v * (x * (x * 1)) * (c * (c * (c * 1))))))
      with (kr / (2 * v * (x * (x * 1)) * (c * (c * (c * 1)))))
      by (field; lra).
    apply Rdiv_lt_0_compat; assumption.
  - apply Ropp_lt_cancel. rewrite Ropp_0.
    replace (- (- kr / (2 * x * c * (v * (v * 1)))))
      with (kr / (2 * x * c * (v * (v * 1)))) by (field; lra).
    apply Rdiv_lt_0_compat; assumption.
Qed.

(** *** The default scenario *)

Lemma sqrt3_bounds : 1.7320508 < R_sqrt.sqrt 3 < 1.7320509.
Proof.
  pose proof (sqrt_pos 3) as H0.
  assert (H3 : R_sqrt.sqrt 3 * R_sqrt.sqrt 3 = 3) by (apply sqrt_sqrt; lra).
  split; nra.
Qed.

Lemma sin_15_deg_sqr :
  Rtrigo_def.sin (15 * (PI / 180)) ^ 2 = (2 - R_sqrt.sqrt 3) / 4.
Proof.
  pose proof (cos_2a_sin (15 * (PI / 180))) as H.
  replace (2 * (15 * (PI / 180))) with (PI / 6) in H by lra.
  rewrite cos_PI6 in H. simpl. lra.
Qed.

Lemma default_radicand_bounds :
  0.9904610 < 1 - (Rtrigo_def.sin (15 * (PI / 180)) / 2.65) ^ 2 < 0.9904611.
Proof.
  replace ((Rtrigo_def.sin (15 * (PI / 180)) / 2.65) ^ 2)
    with (Rtrigo_def.sin (15 * (PI / 180)) ^ 2 / 7.0225) by (simpl; lra).
  rewrite sin_15_deg_sqr. pose proof sqrt3_bounds. lra.
Qed.

Lemma default_cos_bounds : 0.995219 < default_cos < 0.995220.
Proof.
  pose proof default_radicand_bounds as Hr. unfold default_cos.
  set (rad := 1 - (Rtrigo_def.sin (15 * (PI / 180)) / 2.65) ^ 2) in *.
  pose proof (sqrt_pos rad) as H0.
  assert (H2 : R_sqrt.sqrt rad * R_sqrt.sqrt rad = rad)
    by (apply sqrt_sqrt; lra).
  split; nra.
Qed.

Lemma default_cos_theta1 : cos_theta1 default_calculator = Num default_cos.
Proof.
  unfold default_calculator, __init__; cbn [cos_theta1].
  apply calc_cos_theta1_Num; [lra|].
  pose proof default_radicand_bounds. lra.
Qed.

Lemma default_k : k default_calculator = Num 1.
Proof.
  unfold default_calculator, __init__; cbn [k]. unfold _calc_k, gt, lt.
  rewrite Rltb_true by lra. reflexivity.
Qed.

Lemma default_thickness :
  snd (calculate_thickness default_calculator)
  = Num (1 / (2 * 2.65 * default_cos * 1000)).
Proof.
  pose proof default_cos_bounds.
  apply calculate_thickness_Num;
    auto using default_k, default_cos_theta1; nra.
Qed.

Lemma default_thickness_bounds :
  0.000189585 < 1 / (2 * 2.65 * default_cos * 1000) < 0.000189586.
Proof.
  pose proof default_cos_bounds as Hc.
  set (den := 2 * 2.65 * default_cos * 1000).
  assert (Hd : 5274.6607 < den < 5274.666) by (unfold den; lra).
  assert (E : 1 / den * den = 1) by (field; lra).
  split; nra.
Qed.

Lemma default_positive :
  positive (k default_calculator) /\ positive (n1 default_calculator)
  /\ positive (cos_theta1 default_calculator)
  /\ positive (nu_tilde default_calculator).
Proof.
  rewrite default_k, default_cos_theta1. simpl.
  pose proof default_cos_bounds. repeat split; lra.
Qed.

(** C4, as stated, does not hold: with the default inputs the
    refraction cosine is not within 0.0001 of 0.99946 and the thickness
    is not within 1e-7 of 1.8868e-4. *)
Lemma default_scenario_not_as_stated :
  ~ (exists c dv : R,
       cos_theta1 default_calculator = Num c
       /\ Rabs (c - 0.99946) <= 0.0001
       /\ k default_calculator = Num 1
       /\ snd (calculate_thickness default_calculator) = Num dv
       /\ Rabs (dv - 0.00018868) <= 0.0000001
       /\ negative (fst (snd (calculate_sensitivity default_calculator)))
       /\ negative (snd (snd (calculate_sensitivity default_calculator)))).
Proof.
  intros (c & dv & Hc & Hcb & _ & _).
  rewrite default_cos_theta1 in Hc. injection Hc as <-.
  pose proof default_cos_bounds as B.
  unfold Rabs in Hcb. destruct (Rcase_abs (default_cos - 0.99946)); lra.
Qed.

(** C4, amended. With the default inputs the refraction cosine is
    0.99521..., [k] is 1, the thickness is 1.89585...e-4 cm (1.896e-4 to
    four significant figures), and both sensitivities are negative. *)
Theorem default_scenario :
  exists c dv : R,
    cos_theta1 default_calculator = Num c
    /\ 0.995219 < c < 0.995220
    /\ k default_calculator = Num 1
    /\ snd (calculate_thickness default_calculator) = Num dv
    /\ 0.000189585 < dv < 0.000189586
    /\ negative (fst (snd (calculate_sensitivity default_calculator)))
    /\ negative (snd (snd (calculate_sensitivity default_calculator))).
Proof.
  exists default_cos, (1 / (2 * 2.65 * default_cos * 1000)).
  pose proof (sensitivity_signs default_calculator) as S.
  destruct default_positive as (P1 & P2 & P3 & P4).
  specialize (S P1 P2 P3 P4).
  repeat split;
    first [ exact default_cos_theta1 | exact default_k
          | exact default_thickness | apply default_cos_bounds
          | apply default_thickness_bounds | apply S ].
Qed.

(** *** A negative radicand *)

Lemma calc_cos_theta1_radicand (x th : float64) :
  _calc_cos_theta1 x th = sqrt (radicand x th).
Proof. reflexivity. Qed.

Lemma radicand_Num (x t : R) :
  x <> 0 ->
  radicand (Num x) (Num t)
  = Num (1 - (Rtrigo_def.sin (t * (PI / 180)) / x) ^ 2).
Proof.
  intros Hx. unfold radicand. rewrite deg2rad_Num. simpl sin.
  rewrite div_Num by assumption. rewrite pow_Num. reflexivity.
Qed.

(** A positive index below the sine of the incidence angle makes the
    radicand negative. *)
Lemma radicand_negative (x t : R) :
  0 < x -> x < Rtrigo_def.sin (t * (PI / 180)) ->
  lt (radicand (Num x) (Num t)) (Num 0) = true.
Proof.
  intros Hx Hs. rewrite radicand_Num by lra. simpl. apply Rltb_true.
  assert (H1 : 1 < Rtrigo_def.sin (t * (PI / 180)) / x).
  { apply (Rmult_lt_reg_r x); [lra|]. unfold Rdiv.
    rewrite Rmult_assoc, Rinv_l by lra. lra. }
  nra.
Qed.

Lemma sqrt_below_zero (r : float64) : lt r (Num 0) = true -> sqrt r = NaN.
Proof.
  destruct r as [x|[|]|]; simpl; try discriminate; try reflexivity.
  intros H. now rewrite H.
Qed.

Lemma thickness_of_NaN_cosine (n1 n2 th nu : float64) (m : Z) :
  _calc_cos_theta1 n1 th = NaN ->
  compute_thickness n1 n2 th nu m = Py.Ok NaN.
Proof.
  intros H. unfold compute_thickness, calculate_thickness, __init__.
  cbn [snd Epi.k Epi.n1 Epi.cos_theta1 Epi.nu_tilde]. rewrite H.
  rewrite mul_NaN_r. cbn [mul]. now rewrite div_NaN_r.
Qed.

Lemma sin_90_deg : Rtrigo_def.sin (90 * (PI / 180)) = 1.
Proof. replace (90 * (PI / 180)) with (PI / 2) by lra. apply sin_PI2. Qed.

(** C3, as stated, does not hold: with [n1 = 0.5] and an incidence of
    90 degrees the sine exceeds [n1], the radicand is negative, and the
    caller receives the value NaN; nothing is raised. *)
Lemma negative_radicand_not_raised :
  0.5 < Rtrigo_def.sin (90 * (PI / 180))
  /\ lt (radicand (Num 0.5) (Num 90)) (Num 0) = true
  /\ compute_thickness (Num 0.5) (Num 2.68) (Num 90) (Num 1000) 1
     = Py.Ok NaN
  /\ ~ Py.raises
         (compute_thickness (Num 0.5) (Num 2.68) (Num 90) (Num 1000) 1).
Proof.
  assert (Hs : 0.5 < Rtrigo_def.sin (90 * (PI / 180)))
    by (rewrite sin_90_deg; lra).
  assert (Hr : lt (radicand (Num 0.5) (Num 90)) (Num 0) = true)
    by (apply radicand_negative; lra).
  assert (Hv : compute_thickness (Num 0.5) (Num 2.68) (Num 90) (Num 1000) 1
               = Py.Ok NaN).
  { apply thickness_of_NaN_cosine. rewrite calc_cos_theta1_radicand.
    now apply sqrt_below_zero. }
  repeat split; try assumption.
  intros [e He]. rewrite Hv in He. discriminate.
Qed.

(** C9. [calculate_thickness], [calculate_sensitivity] and
    [print_results] (and [plot_sensitivity] as well) leave the five
    inputs and the construction-time values [cos_theta1] and [k]
    unchanged: they write [d], [d_dn1] and [d_dnu] only. *)
Theorem public_operations_frame (self : calculator) :
  fixed_attributes (fst (calculate_thickness self)) = fixed_attributes self
  /\ fixed_attributes (fst (calculate_sensitivity self))
     = fixed_attributes self
  /\ fixed_attributes (fst (print_results self)) = fixed_attributes self
  /\ fixed_attributes (fst (plot_sensitivity self)) = fixed_attributes self.
Proof.
  repeat split.
  - unfold print_results.
    destruct (is_None (d self) || is_None (d_dn1 self)
              || is_None (d_dnu self)); reflexivity.
  - unfold plot_sensitivity. destruct (is_None (d self)); reflexivity.
Qed.

End EpiFacts.

(** ** The multi-beam interference simulator *)

Section NpAlgebra.
Import Np.

Lemma mul_1_r a : mul a (Num 1) = a.
Proof.
  destruct a as [x|s|]; simpl; [f_equal; lra | | reflexivity].
  rewrite Reqb_false by lra. rewrite Rltb_false by lra.
  now destruct s.
Qed.

Lemma Rltb_mult_sign x y :
  x <> 0 -> y <> 0 -> Rltb (x * y) 0 = xorb (Rltb x 0) (Rltb y 0).
Proof.
  intros Hx Hy.
  destruct (Rlt_dec x 0) as [Hx0|Hx0], (Rlt_dec y 0) as [Hy0|Hy0].
  - rewrite (Rltb_true x), (Rltb_true y) by assumption.
    apply Rltb_false. nra.
  - rewrite (Rltb_true x), (Rltb_false y) by lra.
    apply Rltb_true. nra.
  - rewrite (Rltb_false x), (Rltb_true y) by lra.
    apply Rltb_true. nra.
  - rewrite (Rltb_false x), (Rltb_false y) by lra.
    apply Rltb_false. nra.
Qed.

Lemma Reqb_mult x y : Reqb (x * y) 0 = Reqb x 0 || Reqb y 0.
Proof.
  destruct (Req_dec_T x 0) as [->|Hx].
  - rewrite Rmult_0_l. now rewrite (Reqb_true 0 0).
  - destruct (Req_dec_T y 0) as [->|Hy].
    + rewrite Rmult_0_r. rewrite (Reqb_true 0 0) by reflexivity.
      now rewrite orb_true_r.
    + rewrite (Reqb_false x), (Reqb_false y) by assumption.
      apply Reqb_false. now apply Rmult_integral_contrapositive.
Qed.

Lemma mul_assoc a b c : mul (mul a b) c = mul a (mul b c).
Proof.
  destruct a as [x|s|], b as [y|t|], c as [z|u|]; simpl;
    try reflexivity;
    repeat match goal with
           | |- context [Reqb (?p * ?q) 0] => rewrite (Reqb_mult p q)
           | |- context [Reqb ?p 0] =>
               let E := fresh "E" in
               destruct (Req_dec_T p 0) as [E|E];
               [ rewrite (Reqb_true p 0 E) | rewrite (Reqb_false p 0 E) ];
               simpl
           end;
    try reflexivity;
    try (f_equal; ring);
    try (rewrite Rltb_mult_sign by assumption);
    try (repeat match goal with
                | |- context [Rltb ?p 0] => destruct (Rltb p 0)
                end;
         repeat match goal with b : bool |- _ => destruct b end;
         reflexivity).
Qed.

End NpAlgebra.

Section SimFacts.
Import Np Sim.

Lemma pow_double a p : pow a (2 * p) = pow (pow a 2) p.
Proof.
  induction p as [|p IH]; [reflexivity|].
  assert (E : (2 * S p = S (S (2 * p)))%nat) by lia. rewrite E.
  set (b := pow a 2) in *. cbn [pow]. rewrite IH, <- mul_assoc.
  f_equal. subst b. cbn [pow]. now rewrite mul_1_r.
Qed.

(** One row of the order grid: the broadcast products of the source are
    the per-order contributions. *)
Lemma row_terms (A R : float64) (z : complex) (powers : list nat) :
  zip_with (fun x w => cmul (of_real x) w)
           (map (mul A) (map (fun p => pow R (2 * p)) powers))
           (map (fun p => cpow z p) powers)
  = map (order_term A R z) powers.
Proof.
  induction powers as [|p l IH]; [reflexivity|].
  cbn [map zip_with]. rewrite IH. unfold order_term at 2.
  now rewrite pow_double.
Qed.

(** What a successful call returns, array by array. *)
Lemma calculate_interference_Ok
    (N : Z) (lambda_ n h Ai a theta_max delta_theta fixed_angle : float64)
    (out : outputs) :
  calculate_interference N lambda_ n h Ai a theta_max delta_theta
                         fixed_angle = Py.Ok out ->
  exists c : float64,
    arange (neg theta_max) (add theta_max delta_theta) delta_theta
    = Py.Ok (i1 out)
    /\ pydiv (mul (Num 4) pi) lambda_ = Py.Ok c
    /\ It_1 out = map (intensity_at N c n h) (i1 out)
    /\ s_amplitudes out
       = map (fun o => mul (direct_s n fixed_angle)
                           (pow (reflectance2_s n fixed_angle) (o - 1)))
             (arange_nat 1 (N + 1))
    /\ p_amplitudes out
       = map (fun o => mul (direct_p n fixed_angle)
                           (pow (reflectance2_p n fixed_angle) (o - 1)))
             (arange_nat 1 (N + 1))
    /\ orders out = arange_nat 1 (N + 1).
Proof.
  unfold calculate_interference.
  destruct (arange (neg theta_max) (add theta_max delta_theta) delta_theta)
    as [l|e]; cbn [Py.bind]; [|discriminate].
  destruct (pydiv (mul (Num 4) pi) lambda_) as [c|e];
    cbn [Py.bind]; [|discriminate].
  intros H. injection H as <-. exists c.
  cbn [i1 It_1 s_amplitudes p_amplitudes orders].
  repeat split.
  induction l as [|x l IH]; [reflexivity|].
  cbn [map zip_with]. rewrite !row_terms. rewrite IH. reflexivity.
Qed.

(** A call returns as soon as the sweep can be built and the wavelength
    is not zero. *)
Lemma calculate_interference_returns
    (N : Z) (lambda_ n h Ai a theta_max delta_theta fixed_angle : float64)
    (l : list float64) :
  arange (neg theta_max) (add theta_max delta_theta) delta_theta = Py.Ok l ->
  is_zero lambda_ = false ->
  exists out : outputs,
    calculate_interference N lambda_ n h Ai a theta_max delta_theta
                           fixed_angle = Py.Ok out.
Proof.
  intros Ha Hl. unfold calculate_interference. rewrite Ha.
  unfold pydiv at 1. rewrite Hl. cbn [Py.bind]. eexists. reflexivity.
Qed.

(** *** The angle sweep *)

Lemma ceil_bounds (x : R) : x <= IZR (ceil x) < x + 1.
Proof.
  unfold ceil. destruct (archimed (- x)) as [H1 H2].
  rewrite minus_IZR. lra.
Qed.

Lemma ceil_ge_1 (x : R) : 0 < x -> (1 <= ceil x)%Z.
Proof.
  intros Hx. destruct (ceil_bounds x) as [H1 _].
  assert (H : (0 < ceil x)%Z) by (apply lt_IZR; lra). lia.
Qed.

(** The sweep on finite bounds with a non-zero step. *)
Lemma arange_sweep (tm dt : R) :
  dt <> 0 ->
  arange (neg (Num tm)) (add (Num tm) (Num dt)) (Num dt)
  = Py.Ok (map (fun i : nat => Num (- tm + INR i * dt))
               (seq 0 (Z.to_nat (ceil ((tm + dt - - tm) / dt))))).
Proof.
  intros Hdt. unfold arange, pydiv. cbn [is_zero].
  rewrite Reqb_false by assumption. cbn [Py.bind].
  cbn [neg add sub]. rewrite div_Num by assumption. reflexivity.
Qed.

Lemma sweep_length (tm dt : R) :
  0 <= tm -> 0 < dt ->
  exists k : nat,
    Z.to_nat (ceil ((tm + dt - - tm) / dt)) = S k
    /\ 2 * tm <= INR k * dt < 2 * tm + dt.
Proof.
  intros Htm Hdt.
  set (x := (tm + dt - - tm) / dt).
  assert (Hx : x * dt = 2 * tm + dt) by (unfold x; field; lra).
  assert (Hx1 : 1 <= x) by nra.
  destruct (ceil_bounds x) as [B1 B2].
  pose proof (ceil_ge_1 x ltac:(lra)) as Hc.
  exists (Z.to_nat (ceil x - 1)). split; [lia|].
  rewrite INR_IZR_INZ, Z2Nat.id by lia. rewrite minus_IZR.
  split; nra.
Qed.

(** *** The decomposed intensity *)

(** C1, amended. For every angle of the sweep, [It_1] at that angle is
    the sum over the two polarizations of the squared magnitude of the
    complex sum, over the orders [0 .. N-1], of
    [A * (R^2)^order * (exp(i*delta))^order], where [A] is the incident
    component of the polarization ([Asi] or [Api]) times the product of
    the two transmission coefficients [T(i, r) * T(r, i)], and [R] is
    the reflection coefficient of the polarization. *)
Theorem decomposed_intensity
    (N : Z) (lambda_ n h Ai a theta_max delta_theta fixed_angle : float64)
    (out : outputs) :
  calculate_interference N lambda_ n h Ai a theta_max delta_theta
                         fixed_angle = Py.Ok out ->
  exists c : float64,
    pydiv (mul (Num 4) pi) lambda_ = Py.Ok c
    /\ length (It_1 out) = length (i1 out)
    /\ forall idx : nat, (idx < length (i1 out))%nat ->
         nth idx (It_1 out) NaN
         = intensity_at N c n h (nth idx (i1 out) NaN).
Proof.
  intros H.
  destruct (calculate_interference_Ok _ _ _ _ _ _ _ _ _ _ H)
    as (c & _ & Hc & HI & _).
  exists c. rewrite HI. split; [exact Hc|]. split.
  - apply length_map.
  - intros idx Hidx.
    rewrite (nth_indep _ NaN (intensity_at N c n h NaN))
      by (rewrite length_map; exact Hidx).
    apply map_nth.
Qed.

(** The call used below: one beam order, film index [sqrt 3], a sweep
    that starts at minus 60 degrees with a step of one radian. *)
Lemma brewster_call_returns :
  exists out : outputs,
    calculate_interference 1 (Num 500) (Num (R_sqrt.sqrt 3)) (Num 25000)
      (Num 1) a (Num (PI / 3)) (Num 1) fixed_incident_angle = Py.Ok out
    /\ (0 < length (i1 out))%nat
    /\ nth 0 (i1 out) NaN = Num (- (PI / 3)).
Proof.
  pose proof PI_RGT_0 as Hpi.
  pose proof (arange_sweep (PI / 3) 1 ltac:(lra)) as Ha.
  destruct (calculate_interference_returns
              1 (Num 500) (Num (R_sqrt.sqrt 3)) (Num 25000) (Num 1)
              a (Num (PI / 3)) (Num 1) fixed_incident_angle _ Ha)
    as [out Hout].
  { cbn. apply Reqb_false. lra. }
  destruct (calculate_interference_Ok _ _ _ _ _ _ _ _ _ _ Hout)
    as (c & Ha' & _).
  rewrite Ha in Ha'. injection Ha' as Hi.
  destruct (sweep_length (PI / 3) 1 ltac:(lra) ltac:(lra)) as (k & Hk & _).
  rewrite Hk in Hi. exists out. rewrite <- Hi.
  split; [exact Hout|]. split.
  - rewrite length_map, length_seq. lia.
  - cbn. f_equal. lra.
Qed.

Lemma decomposed_intensity_witness :
  exists out : outputs,
    calculate_interference 1 (Num 500) (Num (R_sqrt.sqrt 3)) (Num 25000)
      (Num 1) a (Num (PI / 3)) (Num 1) fixed_incident_angle = Py.Ok out
    /\ exists c : float64,
         pydiv (mul (Num 4) pi) (Num 500) = Py.Ok c
         /\ length (It_1 out) = length (i1 out)
         /\ forall idx : nat, (idx < length (i1 out))%nat ->
              nth idx (It_1 out) NaN
              = intensity_at 1 c (Num (R_sqrt.sqrt 3)) (Num 25000)
                             (nth idx (i1 out) NaN).
Proof.
  destruct brewster_call_returns as (out & Hout & _).
  exists out. split; [exact Hout|].
  exact (decomposed_intensity _ _ _ _ _ _ _ _ _ out Hout).
Defined.

(** Values of the Fresnel formulas on finite angles. *)
Lemma Ts_Num (i r : R) :
  Rtrigo_def.sin (i + r) <> 0 ->
  Ts (Num i) (Num r)
  = Num (2 * Rtrigo_def.sin r * Rtrigo_def.cos i / Rtrigo_def.sin (i + r)).
Proof. intros H. unfold Ts. cbn [sin cos add mul]. now rewrite div_Num. Qed.

Lemma Tp_Num (i r : R) :
  Rtrigo_def.sin (i + r) * Rtrigo_def.cos (i + - r) <> 0 ->
  Tp (Num i) (Num r)
  = Num (2 * Rtrigo_def.sin r * Rtrigo_def.cos i
         / (Rtrigo_def.sin (i + r) * Rtrigo_def.cos (i + - r))).
Proof.
  intros H. unfold Tp. cbn [sin cos add sub neg mul]. now rewrite div_Num.
Qed.

Lemma Asi_Num : Asi = Num (1 * Rtrigo_def.sin (25 * PI / 180)).
Proof.
  unfold Asi, Ai, a, pi. cbn [mul]. rewrite div_Num by lra. reflexivity.
Qed.

Lemma Api_Num : Api = Num (1 * Rtrigo_def.cos (25 * PI / 180)).
Proof.
  unfold Api, Ai, a, pi. cbn [mul]. rewrite div_Num by lra. reflexivity.
Qed.

(** With a single order, the summed intensity is the squared amplitude. *)
Lemma summed_intensity_single (A : R) (R0 : float64) (z : complex) :
  summed_intensity 1 (Num A) R0 z = Num (A * A).
Proof.
  unfold summed_intensity, arange_nat. cbn [Z.sub Z.of_nat Z.to_nat].
  change (Z.to_nat (1 - 0)) with 1%nat.
  cbn [seq map csum fold_right]. unfold order_term.
  change (pow (pow R0 2) 0) with (Num 1).
  cbn [cpow mul]. unfold cabs, cadd, cmul, of_real, sub.
  cbn [fst snd mul add neg].
  set (e := (A * 1 * 1 + - (0 * 0) + 0) * (A * 1 * 1 + - (0 * 0) + 0)
            + (A * 1 * 0 + 0 * 1 + 0) * (A * 1 * 0 + 0 * 1 + 0)).
  assert (He : e = A * A) by (unfold e; ring).
  assert (H0 : 0 <= e) by (rewrite He; nra).
  rewrite sqrt_Num by exact H0. rewrite pow_Num. f_equal.
  simpl. rewrite Rmult_1_r, sqrt_sqrt by exact H0. exact He.
Qed.

Lemma sqrt3_neq_0 : R_sqrt.sqrt 3 <> 0.
Proof. pose proof sqrt3_bounds. lra. Qed.

Lemma refraction_brewster :
  refraction (Num (R_sqrt.sqrt 3)) (Num (- (PI / 3))) = Num (- (PI / 6)).
Proof.
  pose proof PI_RGT_0 as Hpi. pose proof sqrt3_neq_0 as H3.
  unfold refraction. cbn [sin]. rewrite div_Num by exact H3.
  assert (E : Rtrigo_def.sin (- (PI / 3)) / R_sqrt.sqrt 3
              = Rtrigo_def.sin (- (PI / 6))).
  { rewrite !sin_neg, sin_PI3, sin_PI6. field. exact H3. }
  rewrite E. unfold arcsin.
  pose proof (SIN_bound (- (PI / 6))) as [B1 B2].
  rewrite !Rleb_true by assumption. cbn [andb]. f_equal.
  apply asin_sin. lra.
Qed.

(** Incidence at minus 60 degrees on a film of index [sqrt 3]: the
    refraction angle is minus 30 degrees. *)

Lemma brewster_sines :
  Rtrigo_def.sin (- (PI / 3)) = - (R_sqrt.sqrt 3 / 2)
  /\ Rtrigo_def.cos (- (PI / 3)) = 1 / 2
  /\ Rtrigo_def.sin (- (PI / 6)) = - (1 / 2)
  /\ Rtrigo_def.cos (- (PI / 6)) = R_sqrt.sqrt 3 / 2
  /\ Rtrigo_def.sin (- (PI / 3) + - (PI / 6)) = - 1
  /\ Rtrigo_def.sin (- (PI / 6) + - (PI / 3)) = - 1
  /\ Rtrigo_def.cos (- (PI / 3) + - - (PI / 6)) = R_sqrt.sqrt 3 / 2
  /\ Rtrigo_def.cos (- (PI / 6) + - - (PI / 3)) = R_sqrt.sqrt 3 / 2.
Proof.
  replace (- (PI / 3) + - (PI / 6)) with (- (PI / 2)) by lra.
  replace (- (PI / 6) + - (PI / 3)) with (- (PI / 2)) by lra.
  replace (- (PI / 3) + - - (PI / 6)) with (- (PI / 6)) by lra.
  replace (- (PI / 6) + - - (PI / 3)) with (PI / 6) by lra.
  rewrite !sin_neg, !cos_neg, sin_PI3, cos_PI3, sin_PI6, cos_PI6, sin_PI2.
  repeat split; reflexivity.
Qed.

Lemma Ts_brewster :
  Ts (Num (- (PI / 3))) (Num (- (PI / 6))) = Num (1 / 2)
  /\ Ts (Num (- (PI / 6))) (Num (- (PI / 3))) = Num (3 / 2).
Proof.
  destruct brewster_sines as (Si & Ci & Sr & Cr & Sir & Sri & _).
  pose proof (sqrt_sqrt 3 ltac:(lra)) as H3.
  split; rewrite Ts_Num by (rewrite ?Sir, ?Sri; lra); f_equal.
  - rewrite Sr, Ci, Sir. lra.
  - rewrite Si, Cr, Sri. nra.
Qed.

Lemma Tp_brewster :
  Tp (Num (- (PI / 3))) (Num (- (PI / 6))) = Num (1 / R_sqrt.sqrt 3)
  /\ Tp (Num (- (PI / 6))) (Num (- (PI / 3))) = Num (R_sqrt.sqrt 3).
Proof.
  destruct brewster_sines as (Si & Ci & Sr & Cr & Sir & Sri & Cir & Cri).
  pose proof (sqrt_sqrt 3 ltac:(lra)) as H3.
  pose proof sqrt3_neq_0 as N3.
  split; rewrite Tp_Num by (rewrite ?Sir, ?Sri, ?Cir, ?Cri; lra); f_equal.
  - rewrite Sr, Ci, Sir, Cir. field. exact N3.
  - rewrite Si, Cr, Sri, Cri. field. exact N3.
Qed.

(** What the code computes at this angle, and what the sentence of the
    specification gives. *)
Lemma intensity_at_brewster (c h : float64) :
  let s := Rtrigo_def.sin (25 * PI / 180) in
  let k := Rtrigo_def.cos (25 * PI / 180) in
  intensity_at 1 c (Num (R_sqrt.sqrt 3)) h (Num (- (PI / 3)))
  = Num (9 / 16 * (s * s) + k * k)
  /\ intensity_as_stated 1 c (Num (R_sqrt.sqrt 3)) h (Num (- (PI / 3)))
     = Num (1 / 16 * (s * s) + 1 / 9 * (k * k)).
Proof.
  intros s k. unfold intensity_at, intensity_as_stated.
  destruct Ts_brewster as [T1 T2]. destruct Tp_brewster as [P1 P2].
  rewrite refraction_brewster.
  rewrite T1, T2, P1, P2, Asi_Num, Api_Num. fold s k.
  rewrite !pow_Num. cbn [mul].
  rewrite !summed_intensity_single. cbn [add].
  pose proof (sqrt_sqrt 3 ltac:(lra)) as H3.
  pose proof sqrt3_neq_0 as N3.
  assert (E : (1 / R_sqrt.sqrt 3) ^ 2 = 1 / 3).
  { simpl. unfold Rdiv. rewrite !Rmult_1_l, Rmult_1_r.
    now rewrite <- Rinv_mult, H3. }
  split; f_equal.
  - field. exact N3.
  - rewrite E. field.
Qed.


(** C1, as stated, does not hold: with the amplitude taken as the
    incident component times the square of the first-pass transmission
    coefficient, the stated sum differs from [It_1] at the first angle
    of this sweep.  The code multiplies the coefficient into the film by
    the coefficient out of it (1/2 * 3/2 for s), the sentence squares
    the first (1/4). *)
Lemma decomposed_intensity_not_as_stated :
  exists (out : outputs) (c : float64),
    calculate_interference 1 (Num 500) (Num (R_sqrt.sqrt 3)) (Num 25000)
      (Num 1) a (Num (PI / 3)) (Num 1) fixed_incident_angle = Py.Ok out
    /\ pydiv (mul (Num 4) pi) (Num 500) = Py.Ok c
    /\ (0 < length (i1 out))%nat
    /\ nth 0 (It_1 out) NaN
       <> intensity_as_stated 1 c (Num (R_sqrt.sqrt 3)) (Num 25000)
                              (nth 0 (i1 out) NaN).
Proof.
  destruct brewster_call_returns as (out & Hout & Hlen & H0).
  destruct (calculate_interference_Ok _ _ _ _ _ _ _ _ _ _ Hout)
    as (c & _ & Hc & HI & _).
  exists out, c. repeat split; try assumption.
  rewrite HI. destruct (i1 out) as [|x0 l]; [cbn in Hlen; lia|].
  cbn [map nth] in *. rewrite H0.
  destruct (intensity_at_brewster c (Num 25000)) as [E1 E2].
  rewrite E1, E2. intros H. injection H as H.
  pose proof (sin2_cos2 (25 * PI / 180)) as S. unfold Rsqr in S.
  nra.
Qed.

(** *** The per-order amplitudes at the fixed angle *)








(** *** Regular incidence: an angle in (0, 45 degrees), an index above 1 *)

Section RegularIncidence.
Variables ii nn : R.
Hypothesis Hii : 0 < ii < PI / 4.
Hypothesis Hnn : 1 < nn.

Local Abbreviation r := (asin (Rtrigo_def.sin ii / nn)).

Lemma regular_sine : 0 < Rtrigo_def.sin ii / nn < Rtrigo_def.sin ii
                     /\ Rtrigo_def.sin ii <= 1.
Proof.
  pose proof PI_RGT_0 as Hpi.
  assert (Hs : 0 < Rtrigo_def.sin ii) by (apply sin_gt_0; lra).
  pose proof (SIN_bound ii) as [_ Hs1].
  assert (E : Rtrigo_def.sin ii / nn * nn = Rtrigo_def.sin ii)
    by (field; lra).
  assert (Hv : 0 < Rtrigo_def.sin ii / nn)
    by (apply Rdiv_lt_0_compat; lra).
  repeat split; try assumption. nra.
Qed.

Lemma refraction_regular : refraction (Num nn) (Num ii) = Num r.
Proof.
  destruct regular_sine as [[Hv Hvs] Hs1].
  unfold refraction. cbn [sin]. rewrite div_Num by lra.
  unfold arcsin. rewrite !Rleb_true by lra. reflexivity.
Qed.

Lemma regular_refraction_angle : 0 < r < ii.
Proof.
  pose proof PI_RGT_0 as Hpi.
  destruct regular_sine as [[Hv Hvs] Hs1].
  pose proof (asin_bound (Rtrigo_def.sin ii / nn)) as [B1 B2].
  assert (Hsr : Rtrigo_def.sin r = Rtrigo_def.sin ii / nn)
    by (apply sin_asin; lra).
  split.
  - destruct (Rlt_le_dec 0 r) as [Hr|Hr]; [exact Hr|exfalso].
    assert (H : 0 <= Rtrigo_def.sin (- r)) by (apply sin_ge_0; lra).
    rewrite sin_neg in H. lra.
  - apply sin_increasing_0; lra.
Qed.

Lemma regular_trig :
  0 < Rtrigo_def.sin r /\ 0 < Rtrigo_def.sin ii
  /\ 0 < Rtrigo_def.cos r /\ 0 < Rtrigo_def.cos ii
  /\ 0 < Rtrigo_def.sin (ii + - r) < Rtrigo_def.sin (ii + r)
  /\ 0 < Rtrigo_def.cos (ii + - r)
  /\ 0 < Rtrigo_def.cos (ii + r)
  /\ 0 < Rtrigo1.tan (ii + - r) < Rtrigo1.tan (ii + r).
Proof.
  pose proof PI_RGT_0 as Hpi.
  destruct regular_refraction_angle as [Hr0 Hr1].
  repeat split;
    first [ apply sin_gt_0; lra | apply cos_gt_0; lra
          | apply sin_increasing_1; lra | apply tan_gt_0; lra
          | apply tan_increasing; lra ].
Qed.

End RegularIncidence.

(** The module-level call of the script, with the parameter settings
    [N = 15], [n = 10], [theta_max = pi/3], [delta_theta = 0.001] and a
    fixed angle of 15 degrees. *)
Lemma module_level_settings :
  theta_max = Num (PI / 3) /\ delta_theta = Num 0.001
  /\ fixed_incident_angle = Num (15 * PI / 180) /\ n = Num 10
  /\ is_zero lambda_ = false.
Proof.
  unfold theta_max, fixed_incident_angle, pi. cbn [mul].
  rewrite !div_Num by lra. repeat split.
  cbn. apply Reqb_false. lra.
Qed.

Lemma module_level_call_returns :
  exists out : outputs,
    calculate_interference N lambda_ n h Ai a theta_max delta_theta
                           fixed_incident_angle = Py.Ok out.
Proof.
  destruct module_level_settings as (Et & Ed & _ & _ & Hl).
  rewrite Et, Ed.
  pose proof (arange_sweep (PI / 3) 0.001 ltac:(lra)) as Ha.
  exact (calculate_interference_returns _ _ _ _ _ _ _ _ _ _ Ha Hl).
Qed.


(** C10. Two calls that differ only in the azimuth argument [a] have the
    same outcome: all six returned arrays are identical.  The body reads
    the module-level [Asi], [Api] and (inside [P]) the module-level [a],
    never its own parameter. *)
Theorem azimuth_argument_ignored
    (N : Z) (lambda_ n h Ai a a' theta_max delta_theta fixed_angle
       : float64) :
  calculate_interference N lambda_ n h Ai a theta_max delta_theta
                         fixed_angle
  = calculate_interference N lambda_ n h Ai a' theta_max delta_theta
                           fixed_angle.
Proof. reflexivity. Qed.

End SimFacts.

(* ================================================================== *)
(** * Further properties of the thickness calculator *)

Section EpiMore.
Import Np Epi EpiCurves.

(** *** The cached results *)

Lemma results_depend_on_fixed (s1 s2 : calculator) :
  fixed_attributes s1 = fixed_attributes s2 ->
  thickness_of s1 = thickness_of s2
  /\ sensitivities_of s1 = sensitivities_of s2.
Proof.
  unfold fixed_attributes. intros H. injection H as E1 E2 E3 E4 E5 E6 E7.
  unfold thickness_of, sensitivities_of, calculate_thickness,
    calculate_sensitivity. cbn.
  rewrite E1, E4, E6, E7. split; reflexivity.
Qed.

Lemma call_fixed (mth : method) (self : calculator) :
  fixed_attributes (call mth self) = fixed_attributes self.
Proof.
  destruct mth; cbn [call]; try reflexivity.
  - unfold print_results.
    destruct (is_None (d self) || is_None (d_dn1 self)
              || is_None (d_dnu self)); reflexivity.
  - unfold plot_sensitivity. destruct (is_None (d self)); reflexivity.
Qed.

Lemma call_up_to_date (mth : method) (self : calculator) :
  up_to_date self -> up_to_date (call mth self).
Proof.
  intros (Hd & H1 & H2).
  destruct (results_depend_on_fixed _ _ (call_fixed mth self)) as [Et Es].
  unfold up_to_date. rewrite Et, Es.
  destruct mth; cbn [call].
  - cbn. repeat split; auto.
  - cbn. repeat split; auto.
  - unfold print_results.
    destruct (is_None (d self) || is_None (d_dn1 self)
              || is_None (d_dnu self)); cbn; repeat split; auto.
  - unfold plot_sensitivity.
    destruct (is_None (d self)); cbn; repeat split; auto.
Qed.

Lemma run_invariant (calls : list method) (self : calculator) :
  up_to_date self ->
  up_to_date (run calls self)
  /\ fixed_attributes (run calls self) = fixed_attributes self.
Proof.
  revert self. induction calls as [|mth calls IH]; intros self H.
  - split; [exact H | reflexivity].
  - cbn [run fold_left].
    destruct (IH (call mth self) (call_up_to_date mth self H)) as [I1 I2].
    split; [exact I1|]. unfold run in I2. rewrite I2. apply call_fixed.
Qed.

Lemma init_up_to_date (n1 n2 theta0_deg nu_tilde : float64) (m : Z) :
  up_to_date (__init__ n1 n2 theta0_deg nu_tilde m).
Proof. unfold up_to_date. cbn. auto. Qed.

(** X3. [plot_sensitivity] on a freshly constructed object (an order
    [m] that converts to a double) stores the thickness and then raises
    TypeError, because the sensitivities it formats into the plot titles
    are still [None]. *)
Theorem plot_sensitivity_needs_sensitivities
    (n1 n2 theta0_deg nu_tilde : float64) (m : Z) :
  (Z.abs m < 2 ^ 1000)%Z ->
  let s0 := __init__ n1 n2 theta0_deg nu_tilde m in
  snd (plot_sensitivity s0) = Py.Raise Py.TypeError
  /\ d (fst (plot_sensitivity s0)) = Some (thickness_of s0).
Proof.
  intros _. split; reflexivity.
Qed.

Lemma plot_sensitivity_needs_sensitivities_witness :
  snd (plot_sensitivity default_calculator) = Py.Raise Py.TypeError
  /\ d (fst (plot_sensitivity default_calculator))
     = Some (thickness_of default_calculator).
Proof.
  apply (plot_sensitivity_needs_sensitivities
           (Num 2.65) (Num 2.68) (Num 15) (Num 1000) 1).
  apply Z.pow_gt_1; lia.
Defined.

(** *** The sensitivities as derivatives *)

Lemma derivable_pt_lim_eq (f g : R -> R) (x l l' : R) :
  (forall y, f y = g y) -> l = l' ->
  derivable_pt_lim f x l -> derivable_pt_lim g x l'.
Proof.
  intros Hfg <- H eps He. destruct (H eps He) as [dl Hd].
  exists dl. intros h Hh Hhd. rewrite <- !Hfg. now apply Hd.
Qed.

Lemma thickness_derivative_nu (kr a v : R) :
  a <> 0 -> v <> 0 ->
  derivable_pt_lim (fun w => kr / (a * w)) v (- kr / (a * v ^ 2)).
Proof.
  intros Ha Hv.
  pose proof (derivable_pt_lim_div
                (fct_cte kr) (mult_real_fct a id) v 0 (a * 1)
                (derivable_pt_lim_const kr v)
                (derivable_pt_lim_scal id a v 1 (derivable_pt_lim_id v)))
    as H.
  assert (Hn : mult_real_fct a id v <> 0).
  { unfold mult_real_fct, id. apply Rmult_integral_contrapositive. tauto. }
  specialize (H Hn).
  eapply derivable_pt_lim_eq; [| |exact H].
  - intros y. reflexivity.
  - unfold mult_real_fct, id, fct_cte, Rsqr. field. tauto.
Qed.

Lemma thickness_derivative_n1 (kr s v x : R) :
  0 < x -> 0 < v -> 0 < 1 - (s / x) ^ 2 ->
  derivable_pt_lim
    (fun y => kr / (2 * y * R_sqrt.sqrt (1 - (s / y) ^ 2) * v)) x
    (- kr / (2 * v * x ^ 2 * R_sqrt.sqrt (1 - (s / x) ^ 2) ^ 3)).
Proof.
  intros Hx Hv Hg.
  set (c := R_sqrt.sqrt (1 - (s / x) ^ 2)).
  assert (Hc : 0 < c) by (apply sqrt_lt_R0; exact Hg).
  assert (Hcc : c * c = 1 - (s / x) ^ 2) by (apply sqrt_sqrt; lra).
  pose proof (derivable_pt_lim_div (fct_cte s) id x 0 1
                (derivable_pt_lim_const s x) (derivable_pt_lim_id x)
                ltac:(unfold id; lra)) as Hu.
  pose proof (derivable_pt_lim_comp (fct_cte s / id)%F (fun z => z ^ 2) x _ _
                Hu (derivable_pt_lim_pow _ 2)) as Hw.
  pose proof (derivable_pt_lim_minus (fct_cte 1) _ x _ _
                (derivable_pt_lim_const 1 x) Hw) as Hgd.
  assert (Hsq : derivable_pt_lim R_sqrt.sqrt
                  ((fct_cte 1 - comp (fun z => z ^ 2) (fct_cte s / id))%F x)
                  (/ (2 * R_sqrt.sqrt (1 - (s / x) ^ 2)))).
  { apply derivable_pt_lim_sqrt. exact Hg. }
  pose proof (derivable_pt_lim_comp _ R_sqrt.sqrt x _ _ Hgd Hsq) as Hcd.
  pose proof (derivable_pt_lim_mult _ _ x _ _
                (derivable_pt_lim_scal id 2 x 1 (derivable_pt_lim_id x)) Hcd)
    as Hm.
  pose proof (derivable_pt_lim_mult _ _ x _ _ Hm (derivable_pt_lim_const v x))
    as Hden.
  pose proof (derivable_pt_lim_div _ _ x _ _
                (derivable_pt_lim_const kr x) Hden) as Hf.
  assert (Hnz : (mult_real_fct 2 id
                 * comp R_sqrt.sqrt
                     (fct_cte 1 - comp (fun z : R => z ^ 2) (fct_cte s / id))
                 * fct_cte v)%F x <> 0).
  { unfold mult_fct, mult_real_fct, comp, minus_fct, div_fct, fct_cte, id.
    fold c. apply Rgt_not_eq. repeat apply Rmult_lt_0_compat; lra. }
  specialize (Hf Hnz).
  eapply derivable_pt_lim_eq; [| |exact Hf].
  - intros y. reflexivity.
  - unfold mult_fct, mult_real_fct, comp, minus_fct, div_fct, fct_cte, id,
      Rsqr.
    fold c. cbn [pred INR].
    assert (Hs : s * s = x * x * (1 - c * c)).
    { rewrite Hcc. simpl. field. lra. }
    field_simplify_eq; [|lra].
    replace (s ^ 2) with (s * s) by ring. rewrite Hs. ring.
Qed.

(** X6. As functions of real numbers, the expressions of lines 80 and 82
    are the partial derivatives of the thickness expression of line 71:
    the first with respect to the index [n1] (the refraction cosine
    varying with it by Snell's law), the second with respect to the
    wavenumber, at a positive index and wavenumber with a positive
    radicand. *)
Theorem sensitivity_formulas_are_derivatives (kr x s v : R) :
  0 < x -> 0 < v -> 0 < 1 - (s / x) ^ 2 ->
  derivable_pt_lim (fun y => thickness_real kr y s v) x (d_dn1_real kr x s v)
  /\ derivable_pt_lim (fun w => thickness_real kr x s w) v
                      (d_dnu_real kr x s v).
Proof.
  intros Hx Hv Hg. split.
  - unfold thickness_real, d_dn1_real.
    apply thickness_derivative_n1; assumption.
  - unfold thickness_real, d_dnu_real.
    assert (Hc : 0 < R_sqrt.sqrt (1 - (s / x) ^ 2))
      by (apply sqrt_lt_R0; exact Hg).
    apply thickness_derivative_nu; [|lra].
    apply Rgt_not_eq. apply Rmult_lt_0_compat; lra.
Qed.

Lemma sensitivity_formulas_are_derivatives_witness :
  derivable_pt_lim (fun y => thickness_real 1 y 0 1000) 2
                   (d_dn1_real 1 2 0 1000)
  /\ derivable_pt_lim (fun w => thickness_real 1 2 0 w) 1000
                      (d_dnu_real 1 2 0 1000).
Proof.
  apply (sensitivity_formulas_are_derivatives 1 2 0 1000); lra.
Defined.

(** *** The curves of [plot_sensitivity] *)

Lemma nth_map_in {A B} (f : A -> B) (l : list A) (i : nat) (da : A) (db : B) :
  (i < length l)%nat -> nth i (map f l) db = f (nth i l da).
Proof.
  intros Hi. rewrite (nth_indep _ db (f da)) by (now rewrite length_map).
  apply map_nth.
Qed.

Lemma length_linspace (a b : float64) (num : nat) :
  length (linspace a b num) = num.
Proof.
  destruct num as [|[|num]]; [reflexivity | reflexivity |].
  unfold linspace. rewrite length_app, length_map, length_seq.
  cbn [length]. lia.
Qed.

(** X7. The two curves drawn by [plot_sensitivity] have 50 points each
    and agree with the methods: point [i] of the n1-curve is the thickness
    of a calculator constructed with the [i]-th sampled index (cosine and
    [k] recomputed), and point [i] of the wavenumber curve is the
    thickness of a calculator constructed with the [i]-th sampled
    wavenumber, whatever public calls were made on the object before. *)
Theorem plot_curves_agree_with_methods
    (n1 n2 theta0_deg nu_tilde : float64) (m : Z)
    (calls : list method) (i : nat) :
  (i < 50)%nat ->
  let s := run calls (__init__ n1 n2 theta0_deg nu_tilde m) in
  length (d_n1_range s) = 50%nat
  /\ length (d_nu_range s) = 50%nat
  /\ nth i (d_n1_range s) NaN
     = thickness_of
         (__init__ (nth i (n1_range s) NaN) n2 theta0_deg nu_tilde m)
  /\ nth i (d_nu_range s) NaN
     = thickness_of
         (__init__ n1 n2 theta0_deg (nth i (nu_range s) NaN) m).
Proof.
  intros Hi s.
  destruct (run_invariant calls _ (init_up_to_date n1 n2 theta0_deg
                                                   nu_tilde m))
    as [_ Hf].
  fold s in Hf. unfold fixed_attributes in Hf.
  injection Hf as E1 E2 E3 E4 E5 E6 E7.
  unfold d_n1_range, d_nu_range.
  rewrite !length_map. unfold n1_range, nu_range.
  rewrite !length_linspace. repeat split.
  - rewrite (nth_map_in _ _ _ NaN) by (now rewrite length_linspace).
    unfold thickness_for_n1. rewrite E2, E3, E4, E5. reflexivity.
  - rewrite (nth_map_in _ _ _ NaN) by (now rewrite length_linspace).
    rewrite E1, E6, E7. reflexivity.
Qed.

Lemma plot_curves_agree_with_methods_witness :
  let s := run [Calculate_thickness] default_calculator in
  length (d_n1_range s) = 50%nat
  /\ length (d_nu_range s) = 50%nat
  /\ nth 0 (d_n1_range s) NaN
     = thickness_of
         (__init__ (nth 0 (n1_range s) NaN) (Num 2.68) (Num 15) (Num 1000) 1)
  /\ nth 0 (d_nu_range s) NaN
     = thickness_of
         (__init__ (Num 2.65) (Num 2.68) (Num 15)
                   (nth 0 (nu_range s) NaN) 1).
Proof.
  apply (plot_curves_agree_with_methods
           (Num 2.65) (Num 2.68) (Num 15) (Num 1000) 1
           [Calculate_thickness] 0).
  lia.
Defined.

End EpiMore.

(* ================================================================== *)
(** * Further properties of the interference simulator *)

Section NpSigns.
Import Np.

Lemma Rltb_opp x : x <> 0 -> Rltb (- x) 0 = negb (Rltb x 0).
Proof.
  intros Hx. destruct (Rlt_dec x 0) as [H|H].
  - rewrite (Rltb_true x) by assumption. apply Rltb_false. lra.
  - rewrite (Rltb_false x) by lra. apply Rltb_true. lra.
Qed.

Lemma Reqb_opp x : Reqb (- x) 0 = Reqb x 0.
Proof.
  destruct (Req_dec_T x 0) as [->|H].
  - rewrite Ropp_0. reflexivity.
  - rewrite (Reqb_false x) by assumption. apply Reqb_false. lra.
Qed.

Lemma neg_neg a : neg (neg a) = a.
Proof.
  destruct a as [x|s|]; cbn; [f_equal; lra | now rewrite negb_involutive |].
  reflexivity.
Qed.

Lemma add_comm a b : add a b = add b a.
Proof.
  destruct a as [x|s|], b as [y|t|]; cbn; try reflexivity.
  - f_equal. lra.
  - destruct s, t; reflexivity.
Qed.

Lemma add_neg a b : add (neg a) (neg b) = neg (add a b).
Proof.
  destruct a as [x|s|], b as [y|t|]; cbn; try reflexivity.
  - f_equal. lra.
  - destruct s, t; reflexivity.
Qed.

Lemma sub_swap a b : sub b a = neg (sub a b).
Proof.
  unfold sub. rewrite <- add_neg, neg_neg. apply add_comm.
Qed.

Lemma mul_neg_l a b : mul (neg a) b = neg (mul a b).
Proof.
  destruct a as [x|s|], b as [y|t|]; cbn; try reflexivity.
  - f_equal. lra.
  - rewrite Reqb_opp. destruct (Req_dec_T x 0) as [->|H].
    + now rewrite Reqb_true.
    + rewrite Reqb_false by assumption. rewrite Rltb_opp by assumption.
      cbn. f_equal. now destruct (Rltb x 0), t.
  - destruct (Reqb y 0); [reflexivity|]. cbn. f_equal.
    now destruct s, (Rltb y 0).
  - f_equal. now destruct s, t.
Qed.

Lemma div_neg_l a b : div (neg a) b = neg (div a b).
Proof.
  destruct a as [x|s|], b as [y|t|]; cbn; try reflexivity.
  - rewrite Reqb_opp. destruct (Reqb y 0).
    + destruct (Req_dec_T x 0) as [->|H].
      * now rewrite Reqb_true.
      * rewrite Reqb_false by assumption. rewrite Rltb_opp by assumption.
        reflexivity.
    + cbn. f_equal. unfold Rdiv. ring.
  - f_equal. lra.
  - f_equal. now destruct s, (Rltb y 0).
Qed.

Lemma sin_neg_np a : sin (neg a) = neg (sin a).
Proof. destruct a; cbn; [now rewrite sin_neg | reflexivity | reflexivity]. Qed.

Lemma tan_neg_np a : tan (neg a) = neg (tan a).
Proof.
  unfold tan. rewrite sin_neg_np, div_neg_l. f_equal.
  destruct a; cbn; [now rewrite cos_neg | reflexivity | reflexivity].
Qed.

Lemma pow_even_neg a p : pow (neg a) (2 * p) = pow a (2 * p).
Proof.
  assert (H2 : pow (neg a) 2 = pow a 2).
  { cbn [pow]. rewrite !mul_1_r, mul_neg_l.
    destruct a as [x|s|]; cbn; [f_equal; ring | | reflexivity].
    now destruct s. }
  assert (D : forall b q, pow b (2 * q) = pow (pow b 2) q).
  { intros b q. induction q as [|q IH]; [reflexivity|].
    assert (E : (2 * S q = S (S (2 * q)))%nat) by lia. rewrite E.
    set (b2 := pow b 2) in *. cbn [pow]. rewrite IH, <- mul_assoc.
    f_equal. subst b2. cbn [pow]. now rewrite mul_1_r. }
  now rewrite !D, H2.
Qed.

End NpSigns.

Section SimMore.
Import Np Sim SimClosed.

(** *** Reflection coefficients seen from either side *)

(** X8. Exchanging the two angles changes the sign of both reflection
    coefficients, so every even power is the same from either side: the
    film-side coefficients [Rs(r1, i1)], [Rp(r1, i1)] of the per-order sum
    and the air-side coefficients [Rs(i1, r1)], [Rp(i1, r1)] of the
    closed form describe the same reflectance.  This holds for all
    values, inf and NaN included. *)
Theorem reflection_antisymmetric (i r : float64) (p : nat) :
  Rs r i = neg (Rs i r)
  /\ Rp r i = neg (Rp i r)
  /\ pow (Rs r i) (2 * p) = pow (Rs i r) (2 * p)
  /\ pow (Rp r i) (2 * p) = pow (Rp i r) (2 * p).
Proof.
  assert (Hs : Rs r i = neg (Rs i r)).
  { unfold Rs. rewrite (sub_swap i r), sin_neg_np, (add_comm r i).
    now rewrite !div_neg_l. }
  assert (Hp : Rp r i = neg (Rp i r)).
  { unfold Rp. rewrite (sub_swap i r), tan_neg_np, (add_comm r i).
    now rewrite div_neg_l. }
  repeat split; try assumption.
  - rewrite Hs. apply pow_even_neg.
  - rewrite Hp. apply pow_even_neg.
Qed.

(** *** Energy balance at one interface *)

Lemma Rs_Num (i r : R) :
  Rtrigo_def.sin (i + r) <> 0 ->
  Rs (Num i) (Num r)
  = Num (- Rtrigo_def.sin (i + - r) / Rtrigo_def.sin (i + r)).
Proof. intros H. unfold Rs. cbn [sub neg add sin]. now rewrite div_Num. Qed.

(** X9. For finite angles with [sin(i + r) <> 0], the product of the
    s-transmission coefficients into and out of the film is one minus the
    squared s-reflection coefficient (Stokes' relation): the amplitude
    factor [Ts(i, r) * Ts(r, i)] used for [As] is [1 - Rs(i, r)^2]. *)
Theorem stokes_relation_s (i r : R) :
  Rtrigo_def.sin (i + r) <> 0 ->
  mul (Ts (Num i) (Num r)) (Ts (Num r) (Num i))
  = sub (Num 1) (pow (Rs (Num i) (Num r)) 2).
Proof.
  intros H.
  assert (H' : Rtrigo_def.sin (r + i) <> 0) by (now rewrite Rplus_comm).
  rewrite !Ts_Num, Rs_Num by assumption. rewrite pow_Num.
  cbn [mul sub neg add]. f_equal.
  rewrite (Rplus_comm r i).
  rewrite sin_plus in *. rewrite sin_plus, sin_neg, cos_neg.
  set (si := Rtrigo_def.sin i) in *. set (ci := Rtrigo_def.cos i) in *.
  set (sr := Rtrigo_def.sin r) in *. set (cr := Rtrigo_def.cos r) in *.
  field. exact H.
Qed.

Lemma stokes_relation_s_witness :
  Rtrigo_def.sin (- (PI / 3) + - (PI / 6)) <> 0
  /\ mul (Ts (Num (- (PI / 3))) (Num (- (PI / 6))))
         (Ts (Num (- (PI / 6))) (Num (- (PI / 3))))
     = sub (Num 1) (pow (Rs (Num (- (PI / 3))) (Num (- (PI / 6)))) 2).
Proof.
  assert (H : Rtrigo_def.sin (- (PI / 3) + - (PI / 6)) <> 0).
  { destruct brewster_sines as (_ & _ & _ & _ & E & _). rewrite E. lra. }
  split; [exact H|].
  exact (stokes_relation_s (- (PI / 3)) (- (PI / 6)) H).
Defined.

Lemma stokes_p_real (si ci sr cr : R) :
  si * si + ci * ci = 1 -> sr * sr + cr * cr = 1 ->
  si * cr + ci * sr <> 0 -> ci * cr + si * sr <> 0 ->
  ci * cr - si * sr <> 0 ->
  2 * sr * ci / ((si * cr + ci * sr) * (ci * cr + si * sr))
  * (2 * si * cr / ((si * cr + ci * sr) * (ci * cr + si * sr)))
  = 1 - ((si * cr - ci * sr) / (ci * cr + si * sr)
         / ((si * cr + ci * sr) / (ci * cr - si * sr))) ^ 2.
Proof.
  intros Hi Hr H1 H2 H3.
  set (A := (ci * cr + si * sr) * (si * cr + ci * sr)).
  set (B := (si * cr - ci * sr) * (ci * cr - si * sr)).
  assert (EA : A = si * ci + sr * cr).
  { transitivity
      (si * ci * (sr * sr + cr * cr) + sr * cr * (si * si + ci * ci));
      [unfold A; ring | rewrite Hi, Hr; ring]. }
  assert (EB : B = si * ci - sr * cr).
  { transitivity
      (si * ci * (sr * sr + cr * cr) - sr * cr * (si * si + ci * ci));
      [unfold B; ring | rewrite Hi, Hr; ring]. }
  assert (HA : A <> 0)
    by (unfold A; apply Rmult_integral_contrapositive; tauto).
  assert (F : 4 * sr * ci * si * cr = A * A - B * B)
    by (rewrite EA, EB; ring).
  transitivity (4 * sr * ci * si * cr / (A * A)).
  { unfold A. field. tauto. }
  transitivity (1 - (B / A) ^ 2).
  { rewrite F. field. exact HA. }
  f_equal. f_equal. unfold A, B. field. tauto.
Qed.

(** X10. For finite angles with [sin(i + r)], [cos(i - r)] and
    [cos(i + r)] all non-zero, the same holds for the p polarization:
    [Tp(i, r) * Tp(r, i)], the factor used for [Ap], is
    [1 - Rp(i, r)^2]. *)
Theorem stokes_relation_p (i r : R) :
  Rtrigo_def.sin (i + r) <> 0 -> Rtrigo_def.cos (i - r) <> 0 ->
  Rtrigo_def.cos (i + r) <> 0 ->
  mul (Tp (Num i) (Num r)) (Tp (Num r) (Num i))
  = sub (Num 1) (pow (Rp (Num i) (Num r)) 2).
Proof.
  intros Hs Hc Hc'.
  assert (Hs' : Rtrigo_def.sin (r + i) <> 0) by (now rewrite Rplus_comm).
  assert (Hc1 : Rtrigo_def.cos (i + - r) <> 0) by exact Hc.
  assert (Hc2 : Rtrigo_def.cos (r + - i) <> 0).
  { replace (r + - i) with (- (i + - r)) by lra. now rewrite cos_neg. }
  rewrite !Tp_Num by (apply Rmult_integral_contrapositive; tauto).
  unfold Rp, tan. cbn [sub neg add sin cos].
  rewrite !div_Num; try assumption.
  2:{ unfold Rdiv. apply Rmult_integral_contrapositive. split; [exact Hs|].
      now apply Rinv_neq_0_compat. }
  rewrite pow_Num. cbn [mul add neg]. f_equal.
  rewrite (Rplus_comm r i).
  replace (r + - i) with (- (i + - r)) by lra. rewrite (cos_neg (i + - r)).
  set (si := Rtrigo_def.sin i). set (ci := Rtrigo_def.cos i).
  set (sr := Rtrigo_def.sin r). set (cr := Rtrigo_def.cos r).
  assert (E1 : Rtrigo_def.sin (i + r) = si * cr + ci * sr)
    by apply sin_plus.
  assert (E2 : Rtrigo_def.cos (i + - r) = ci * cr + si * sr).
  { rewrite cos_plus, sin_neg, cos_neg. unfold si, ci, sr, cr. ring. }
  assert (E3 : Rtrigo_def.sin (i + - r) = si * cr - ci * sr).
  { rewrite sin_plus, sin_neg, cos_neg. unfold si, ci, sr, cr. ring. }
  assert (E4 : Rtrigo_def.cos (i + r) = ci * cr - si * sr)
    by apply cos_plus.
  rewrite E1, E2, E3, E4 in *.
  apply stokes_p_real; try assumption.
  - pose proof (sin2_cos2 i) as H. unfold Rsqr in H. exact H.
  - pose proof (sin2_cos2 r) as H. unfold Rsqr in H. exact H.
Qed.

Lemma stokes_relation_p_witness :
  let i := 15 * PI / 180 in
  let r := asin (Rtrigo_def.sin i / 10) in
  (Rtrigo_def.sin (i + r) <> 0 /\ Rtrigo_def.cos (i - r) <> 0
   /\ Rtrigo_def.cos (i + r) <> 0)
  /\ mul (Tp (Num i) (Num r)) (Tp (Num r) (Num i))
     = sub (Num 1) (pow (Rp (Num i) (Num r)) 2).
Proof.
  intros i r. pose proof PI_RGT_0 as Hpi.
  destruct (regular_trig i 10 ltac:(unfold i; lra) ltac:(lra))
    as (_ & _ & _ & _ & [Sd Sdt] & Cd & Ct & _).
  fold r in Sd, Sdt, Cd, Ct.
  assert (H : Rtrigo_def.sin (i + r) <> 0 /\ Rtrigo_def.cos (i - r) <> 0
              /\ Rtrigo_def.cos (i + r) <> 0).
  { repeat split; apply Rgt_not_eq; [lra | exact Cd | exact Ct]. }
  split; [exact H|].
  destruct H as (H1 & H2 & H3).
  exact (stokes_relation_p i r H1 H2 H3).
Defined.

(** *** Shape of the result and failure points *)

Lemma It_2_Ok
    (N : Z) (lambda_ n h Ai a theta_max delta_theta fixed_angle : float64)
    (out : outputs) :
  calculate_interference N lambda_ n h Ai a theta_max delta_theta
                         fixed_angle = Py.Ok out ->
  exists c : float64,
    pydiv (mul (Num 4) pi) lambda_ = Py.Ok c
    /\ It_2 out = map (closed_form_at c n h Ai) (i1 out).
Proof.
  unfold calculate_interference.
  destruct (arange (neg theta_max) (add theta_max delta_theta) delta_theta)
    as [l|e]; cbn [Py.bind]; [|discriminate].
  destruct (pydiv (mul (Num 4) pi) lambda_) as [c|e];
    cbn [Py.bind]; [|discriminate].
  intros H. injection H as <-. exists c. cbn [i1 It_2].
  split; [reflexivity|].
  induction l as [|x l IH]; [reflexivity|].
  cbn [map zip_with]. rewrite IH. reflexivity.
Qed.

Lemma arange_nat_orders (N : Z) : arange_nat 1 (N + 1) = seq 1 (Z.to_nat N).
Proof. unfold arange_nat. f_equal. lia. Qed.

(** X11. When the call returns, the two intensity arrays have one entry
    per angle of the sweep and the two amplitude arrays have one entry
    per element of [orders]. *)
Theorem output_lengths_agree
    (N : Z) (lambda_ n h Ai a theta_max delta_theta fixed_angle : float64)
    (out : outputs) :
  calculate_interference N lambda_ n h Ai a theta_max delta_theta
                         fixed_angle = Py.Ok out ->
  length (It_1 out) = length (i1 out)
  /\ length (It_2 out) = length (i1 out)
  /\ length (s_amplitudes out) = length (orders out)
  /\ length (p_amplitudes out) = length (orders out).
Proof.
  intros H.
  destruct (calculate_interference_Ok _ _ _ _ _ _ _ _ _ _ H)
    as (c & _ & _ & H1 & Hs & Hp & Ho).
  destruct (It_2_Ok _ _ _ _ _ _ _ _ _ _ H) as (c' & _ & H2).
  rewrite H1, H2, Hs, Hp, Ho, !length_map.
  repeat split; reflexivity.
Qed.

Lemma output_lengths_agree_witness :
  exists out : outputs,
    calculate_interference N lambda_ n h Ai a theta_max delta_theta
                           fixed_incident_angle = Py.Ok out
    /\ length (It_1 out) = length (i1 out)
    /\ length (It_2 out) = length (i1 out)
    /\ length (s_amplitudes out) = length (orders out)
    /\ length (p_amplitudes out) = length (orders out).
Proof.
  destruct module_level_call_returns as [out Hout].
  exists out. split; [exact Hout|].
  exact (output_lengths_agree _ _ _ _ _ _ _ _ _ out Hout).
Defined.

(** X13. With a zero wavelength the call never returns, whatever the
    other arguments are: either the sweep cannot be built, or the
    quotient [4 * np.pi / lambda_], a division of Python numbers, raises
    ZeroDivisionError. *)
Theorem zero_wavelength_never_returns
    (N : Z) (n h Ai a theta_max delta_theta fixed_angle : float64) :
  Py.raises (calculate_interference N (Num 0) n h Ai a theta_max
                                    delta_theta fixed_angle).
Proof.
  unfold calculate_interference.
  destruct (arange (neg theta_max) (add theta_max delta_theta) delta_theta)
    as [l|e]; cbn [Py.bind].
  - unfold pydiv. cbn [is_zero]. rewrite Reqb_true by reflexivity.
    cbn [Py.bind]. eexists; reflexivity.
  - eexists; reflexivity.
Qed.

(** X14. A zero [delta_theta] makes the call raise, whatever the other
    arguments are: the sweep cannot be built. *)
Theorem zero_step_raises
    (N : Z) (lambda_ n h Ai a theta_max fixed_angle : float64) :
  Py.raises
    (calculate_interference N lambda_ n h Ai a theta_max (Num 0)
                            fixed_angle).
Proof.
  exists Py.ZeroDivisionError. unfold calculate_interference, arange, pydiv.
  cbn [is_zero]. now rewrite Reqb_true.
Qed.

(** *** Range of the two intensities *)

Lemma not_negative_lt a : not_negative a -> lt a (Num 0) = false.
Proof.
  destruct a as [x|s|]; cbn; intros H.
  - now apply Rltb_false.
  - exact H.
  - reflexivity.
Qed.

Lemma square_not_negative a : not_negative (pow a 2).
Proof.
  cbn [pow]. rewrite mul_1_r. destruct a as [x|s|]; cbn.
  - nra.
  - now destruct s.
  - exact I.
Qed.

Lemma add_not_negative a b :
  not_negative a -> not_negative b -> not_negative (add a b).
Proof.
  destruct a as [x|s|], b as [y|t|]; cbn; intros Ha Hb; try exact I;
    try assumption.
  - lra.
  - subst. reflexivity.
Qed.

Lemma intensity_at_not_negative (N : Z) (c n h x : float64) :
  not_negative (intensity_at N c n h x).
Proof.
  unfold intensity_at, summed_intensity.
  apply add_not_negative; apply square_not_negative.
Qed.

(** X15. No entry of [It_1] is negative, for any arguments: each one is a
    non-negative number, +inf or NaN. *)
Theorem It_1_never_negative
    (N : Z) (lambda_ n h Ai a theta_max delta_theta fixed_angle : float64)
    (out : outputs) (idx : nat) :
  calculate_interference N lambda_ n h Ai a theta_max delta_theta
                         fixed_angle = Py.Ok out ->
  not_negative (nth idx (It_1 out) NaN)
  /\ lt (nth idx (It_1 out) NaN) (Num 0) = false.
Proof.
  intros H.
  destruct (calculate_interference_Ok _ _ _ _ _ _ _ _ _ _ H)
    as (c & _ & _ & HI & _).
  assert (Hn : not_negative (nth idx (It_1 out) NaN)).
  { rewrite HI.
    destruct (Nat.lt_ge_cases idx (length (i1 out))) as [Hi|Hi].
    - rewrite (nth_map_in _ _ _ NaN) by exact Hi.
      apply intensity_at_not_negative.
    - rewrite nth_overflow by (now rewrite length_map). exact I. }
  split; [exact Hn | now apply not_negative_lt].
Qed.

Lemma It_1_never_negative_witness :
  exists out : outputs,
    calculate_interference N lambda_ n h Ai a theta_max delta_theta
                           fixed_incident_angle = Py.Ok out
    /\ not_negative (nth 0 (It_1 out) NaN)
    /\ lt (nth 0 (It_1 out) NaN) (Num 0) = false.
Proof.
  destruct module_level_call_returns as [out Hout].
  exists out. split; [exact Hout|].
  exact (It_1_never_negative _ _ _ _ _ _ _ _ _ out 0 Hout).
Defined.

(** The sweep has no orders to sum when [N <= 0]. *)
Lemma intensity_at_no_orders (N : Z) (c n h x : float64) :
  (N <= 0)%Z -> intensity_at N c n h x = Num 0.
Proof.
  intros HN. unfold intensity_at, summed_intensity, arange_nat.
  replace (Z.to_nat (N - Z.of_nat 0)) with 0%nat by lia.
  cbn [seq map csum fold_right]. unfold cabs. cbn [fst snd mul add].
  rewrite sqrt_Num by lra. rewrite pow_Num. cbn [add]. f_equal.
  replace (0 * 0 + 0 * 0) with 0 by ring. rewrite sqrt_0. ring.
Qed.

(** X16. With [N <= 0] the call still returns: [orders] and both
    amplitude arrays are empty and every entry of [It_1] is 0. *)
Theorem no_orders
    (N : Z) (lambda_ n h Ai a theta_max delta_theta fixed_angle : float64)
    (out : outputs) :
  (N <= 0)%Z ->
  calculate_interference N lambda_ n h Ai a theta_max delta_theta
                         fixed_angle = Py.Ok out ->
  orders out = [] /\ s_amplitudes out = [] /\ p_amplitudes out = []
  /\ forall idx : nat, (idx < length (i1 out))%nat ->
       nth idx (It_1 out) NaN = Num 0.
Proof.
  intros HN H.
  destruct (calculate_interference_Ok _ _ _ _ _ _ _ _ _ _ H)
    as (c & _ & _ & HI & Hs & Hp & Ho).
  rewrite Hs, Hp, Ho, HI, arange_nat_orders.
  replace (Z.to_nat N) with 0%nat by lia. cbn [seq map].
  repeat split. intros idx Hi.
  rewrite (nth_map_in _ _ _ NaN) by exact Hi.
  now apply intensity_at_no_orders.
Qed.

Lemma no_orders_witness :
  exists out : outputs,
    calculate_interference 0 lambda_ n h Ai a theta_max delta_theta
                           fixed_incident_angle = Py.Ok out
    /\ orders out = [] /\ s_amplitudes out = [] /\ p_amplitudes out = []
    /\ forall idx : nat, (idx < length (i1 out))%nat ->
         nth idx (It_1 out) NaN = Num 0.
Proof.
  destruct module_level_settings as (Et & Ed & _ & _ & Hl).
  pose proof (arange_sweep (PI / 3) 0.001 ltac:(lra)) as Ha.
  rewrite <- Et, <- Ed in Ha.
  destruct (calculate_interference_returns
              0 lambda_ n h Ai a theta_max delta_theta fixed_incident_angle
              _ Ha Hl) as [out Hout].
  exists out. split; [exact Hout|].
  exact (no_orders 0 _ _ _ _ _ _ _ _ out ltac:(lia) Hout).
Defined.

Lemma add_Num_inv a b y :
  add a b = Num y -> exists u w, a = Num u /\ b = Num w /\ y = u + w.
Proof.
  destruct a as [u|s|], b as [w|t|]; cbn; try discriminate.
  - intros H. injection H as <-. eauto.
  - destruct (Bool.eqb s t); discriminate.
Qed.

Lemma mul_Num_inv a b y :
  mul a b = Num y -> exists u w, a = Num u /\ b = Num w /\ y = u * w.
Proof.
  destruct a as [u|s|], b as [w|t|]; cbn; try discriminate.
  - intros H. injection H as <-. eauto.
  - destruct (Reqb u 0); discriminate.
  - destruct (Reqb w 0); discriminate.
Qed.

Lemma neg_Num_inv a y : neg a = Num y -> a = Num (- y).
Proof.
  destruct a as [u|s|]; cbn; try discriminate.
  intros H. injection H as <-. f_equal. lra.
Qed.

Lemma square_Num_inv a y :
  pow a 2 = Num y -> exists u, a = Num u /\ y = u * u.
Proof.
  cbn [pow]. rewrite mul_1_r. intros H.
  destruct (mul_Num_inv _ _ _ H) as (u & w & -> & E & ->).
  injection E as <-. eauto.
Qed.

Lemma div_Num_inv a b q :
  div a b = Num q ->
  (exists u w, a = Num u /\ b = Num w /\ w <> 0 /\ q = u / w)
  \/ (exists u s, a = Num u /\ b = Inf s /\ q = 0).
Proof.
  destruct a as [u|s|], b as [w|t|]; cbn; try discriminate.
  - destruct (Req_dec_T w 0) as [->|Hw].
    + rewrite Reqb_true by reflexivity. destruct (Reqb u 0); discriminate.
    + rewrite Reqb_false by assumption. intros H. injection H as <-.
      left. exists u, w. auto.
  - intros H. injection H as <-. right. eauto.
Qed.

Lemma P_Num_nonneg rs rp p : P rs rp = Num p -> 0 <= p.
Proof.
  unfold P. intros H.
  destruct (add_Num_inv _ _ _ H) as (u & w & Hu & Hw & ->).
  destruct (square_Num_inv _ _ Hu) as (y & _ & ->).
  destruct (square_Num_inv _ _ Hw) as (z & _ & ->). nra.
Qed.

Lemma closed_form_bounded (c n h x : float64) (a0 v : R) :
  closed_form_at c n h (Num a0) x = Num v -> 0 <= v <= a0 ^ 2.
Proof.
  unfold closed_form_at. cbv zeta.
  set (p := P (Rs x (refraction n x)) (Rp x (refraction n x))).
  set (sn := sin (div (mul (mul (mul c n) h) (cos (refraction n x)))
                      (Num 2))).
  intros H.
  destruct (mul_Num_inv _ _ _ H) as (q & w & Hq & Hw & ->).
  rewrite pow_Num in Hw. injection Hw as <-.
  assert (Ha : 0 <= a0 ^ 2) by (simpl; nra).
  destruct (div_Num_inv _ _ _ Hq)
    as [(u & d & Hu & Hd & Hd0 & ->) | (u & s & _ & _ & ->)];
    [|split; simpl; nra].
  destruct (square_Num_inv _ _ Hu) as (z & Hz & ->).
  unfold sub in Hz.
  destruct (add_Num_inv _ _ _ Hz) as (o & np & _ & Hnp & _).
  apply neg_Num_inv in Hnp.
  destruct (add_Num_inv _ _ _ Hd) as (u' & b & Hu' & Hb & ->).
  rewrite Hu in Hu'. injection Hu' as <-.
  destruct (mul_Num_inv _ _ _ Hb) as (fp & sq & Hfp & Hsq & ->).
  destruct (square_Num_inv _ _ Hsq) as (t & _ & ->).
  rewrite Hnp in Hfp. cbn [mul] in Hfp. injection Hfp as <-.
  pose proof (P_Num_nonneg _ _ _ Hnp) as Hp0.
  assert (Hb0 : 0 <= 4 * - np * (t * t)) by nra.
  assert (Hu0 : 0 <= z * z) by nra.
  assert (Hdpos : 0 < z * z + 4 * - np * (t * t)) by lra.
  assert (Hq0 : 0 <= z * z / (z * z + 4 * - np * (t * t)))
    by (apply Rle_mult_inv_pos; assumption).
  assert (Hq1 : z * z / (z * z + 4 * - np * (t * t)) <= 1).
  { apply (Rmult_le_reg_r (z * z + 4 * - np * (t * t))); [exact Hdpos|].
    unfold Rdiv. rewrite Rmult_assoc, Rinv_l by lra. lra. }
  split; nra.
Qed.

(** X17. Whenever an entry of the closed-form intensity [It_2] is a finite
    number, it lies between 0 and [Ai^2]: the textbook formula never
    exceeds the incident intensity. *)
Theorem It_2_bounded
    (N : Z) (lambda_ n h a theta_max delta_theta fixed_angle : float64)
    (a0 v : R) (out : outputs) (idx : nat) :
  calculate_interference N lambda_ n h (Num a0) a theta_max delta_theta
                         fixed_angle = Py.Ok out ->
  nth idx (It_2 out) NaN = Num v ->
  0 <= v <= a0 ^ 2.
Proof.
  intros H Hv.
  destruct (It_2_Ok _ _ _ _ _ _ _ _ _ _ H) as (c & _ & H2).
  rewrite H2 in Hv.
  destruct (Nat.lt_ge_cases idx (length (i1 out))) as [Hi|Hi].
  - rewrite (nth_map_in _ _ _ NaN) in Hv by exact Hi.
    exact (closed_form_bounded _ _ _ _ _ _ Hv).
  - rewrite nth_overflow in Hv by (now rewrite length_map). discriminate.
Qed.

(** *** Symmetry in the incidence angle *)

Lemma div_neg_neg a b : is_zero b = false -> div (neg a) (neg b) = div a b.
Proof.
  destruct a as [x|s|], b as [y|t|]; cbn; try reflexivity.
  - intros Hy. rewrite Reqb_opp, Hy. f_equal. field.
    intros E. rewrite (Reqb_true y 0 E) in Hy. discriminate.
  - intros Hy. f_equal.
    assert (Hy0 : y <> 0).
    { intros E. rewrite (Reqb_true y 0 E) in Hy. discriminate. }
    rewrite Rltb_opp by exact Hy0. now destruct s, (Rltb y 0).
Qed.

Lemma cos_neg_np a : cos (neg a) = cos a.
Proof. destruct a; cbn; [now rewrite cos_neg | reflexivity | reflexivity]. Qed.

Lemma mul_neg_r a b : mul a (neg b) = neg (mul a b).
Proof.
  destruct a as [x|s|], b as [y|t|]; cbn; try reflexivity.
  - f_equal. lra.
  - destruct (Reqb x 0); [reflexivity|]. cbn. f_equal.
    now destruct (Rltb x 0), t.
  - rewrite Reqb_opp. destruct (Req_dec_T y 0) as [->|H].
    + now rewrite Reqb_true.
    + rewrite Reqb_false by assumption. rewrite Rltb_opp by assumption.
      cbn. f_equal. now destruct s, (Rltb y 0).
  - f_equal. now destruct s, t.
Qed.

Lemma arcsin_neg a : arcsin (neg a) = neg (arcsin a).
Proof.
  destruct a as [x|s|]; cbn; try reflexivity.
  destruct (Rle_dec (-1) x) as [H1|H1], (Rle_dec x 1) as [H2|H2].
  - rewrite !Rleb_true by lra. cbn. now rewrite asin_opp.
  - assert (E : Rleb x 1 = false).
    { unfold Rleb. destruct (Rle_dec x 1); [contradiction | reflexivity]. }
    assert (E' : Rleb (-1) (- x) = false).
    { unfold Rleb. destruct (Rle_dec (-1) (- x)); [lra | reflexivity]. }
    rewrite E, E', andb_false_r. reflexivity.
  - assert (E : Rleb (-1) x = false).
    { unfold Rleb. destruct (Rle_dec (-1) x); [contradiction | reflexivity]. }
    assert (E' : Rleb (- x) 1 = false).
    { unfold Rleb. destruct (Rle_dec (- x) 1); [lra | reflexivity]. }
    rewrite E, E', andb_false_r. reflexivity.
  - lra.
Qed.

Lemma refraction_neg (n x : float64) :
  refraction n (neg x) = neg (refraction n x).
Proof. unfold refraction. now rewrite sin_neg_np, div_neg_l, arcsin_neg. Qed.

Lemma is_zero_tan a : is_zero (sin a) = false -> is_zero (tan a) = false.
Proof.
  destruct a as [x|s|]; cbn; try reflexivity. intros Hs.
  destruct (Req_dec_T (Rtrigo_def.cos x) 0) as [E|E].
  - rewrite (Reqb_true _ _ E), Hs. reflexivity.
  - rewrite (Reqb_false _ _ E). cbn. apply Reqb_false.
    assert (Hs0 : Rtrigo_def.sin x <> 0).
    { intros E0. rewrite (Reqb_true _ _ E0) in Hs. discriminate. }
    unfold Rdiv. apply Rmult_integral_contrapositive. split; [exact Hs0|].
    now apply Rinv_neq_0_compat.
Qed.

Lemma is_zero_mul a b :
  is_zero a = false -> is_zero b = false -> is_zero (mul a b) = false.
Proof.
  destruct a as [x|s|], b as [y|t|]; cbn; try reflexivity.
  - intros Hx Hy. rewrite Reqb_mult, Hx, Hy. reflexivity.
  - intros Hx _. now rewrite Hx.
  - intros _ Hy. now rewrite Hy.
Qed.

(** At opposite angles the four Fresnel coefficients are the same,
    provided the denominators [sin(i + r)] and [cos(i - r)] are not
    zero. *)
Lemma fresnel_even (i r : float64) :
  is_zero (sin (add i r)) = false ->
  is_zero (cos (sub i r)) = false ->
  Ts (neg i) (neg r) = Ts i r /\ Ts (neg r) (neg i) = Ts r i
  /\ Tp (neg i) (neg r) = Tp i r /\ Tp (neg r) (neg i) = Tp r i
  /\ Rs (neg i) (neg r) = Rs i r /\ Rs (neg r) (neg i) = Rs r i
  /\ Rp (neg i) (neg r) = Rp i r /\ Rp (neg r) (neg i) = Rp r i.
Proof.
  intros Hs Hc.
  assert (Hs' : is_zero (sin (add r i)) = false)
    by (now rewrite add_comm).
  assert (Hc' : is_zero (cos (sub r i)) = false)
    by (now rewrite (sub_swap i r), cos_neg_np).
  assert (T : forall u w, is_zero (sin (add u w)) = false ->
                Ts (neg u) (neg w) = Ts u w).
  { intros u w H. unfold Ts.
    rewrite add_neg, !sin_neg_np, cos_neg_np, mul_neg_r, mul_neg_l.
    now apply div_neg_neg. }
  assert (T' : forall u w, is_zero (sin (add u w)) = false ->
                 is_zero (cos (sub u w)) = false ->
                 Tp (neg u) (neg w) = Tp u w).
  { intros u w H H0. unfold Tp.
    assert (E : sub (neg u) (neg w) = neg (sub u w))
      by (unfold sub; apply add_neg).
    rewrite add_neg, E, !sin_neg_np, !cos_neg_np, mul_neg_r, !mul_neg_l.
    apply div_neg_neg. now apply is_zero_mul. }
  assert (RS : forall u w, is_zero (sin (add u w)) = false ->
                 Rs (neg u) (neg w) = Rs u w).
  { intros u w H. unfold Rs.
    assert (E : sub (neg u) (neg w) = neg (sub u w))
      by (unfold sub; apply add_neg).
    rewrite add_neg, E, !sin_neg_np. now apply div_neg_neg. }
  assert (RP : forall u w, is_zero (sin (add u w)) = false ->
                 Rp (neg u) (neg w) = Rp u w).
  { intros u w H. unfold Rp.
    assert (E : sub (neg u) (neg w) = neg (sub u w))
      by (unfold sub; apply add_neg).
    rewrite add_neg, E, !tan_neg_np. apply div_neg_neg.
    now apply is_zero_tan. }
  repeat split; auto.
Qed.

Lemma intensity_even (N : Z) (c n h Ai x : float64) :
  is_zero (sin (add x (refraction n x))) = false ->
  is_zero (cos (sub x (refraction n x))) = false ->
  intensity_at N c n h (neg x) = intensity_at N c n h x
  /\ closed_form_at c n h Ai (neg x) = closed_form_at c n h Ai x.
Proof.
  intros Hs Hc.
  destruct (fresnel_even x (refraction n x) Hs Hc)
    as (E1 & E2 & E3 & E4 & E5 & E6 & E7 & E8).
  unfold intensity_at, closed_form_at, phase_factor.
  rewrite !refraction_neg, !cos_neg_np, E1, E2, E3, E4, E5, E6, E7, E8.
  split; reflexivity.
Qed.

(** X18. Two angles of the sweep that are opposite to each other have
    the same [It_1] and the same [It_2], provided the Fresnel denominators
    [sin(i + r)] and [cos(i - r)] are not zero at that angle: the computed
    fringe pattern is symmetric about normal incidence. *)
Theorem intensities_symmetric
    (N : Z) (lambda_ n h Ai a theta_max delta_theta fixed_angle : float64)
    (out : outputs) (idx jdx : nat) :
  calculate_interference N lambda_ n h Ai a theta_max delta_theta
                         fixed_angle = Py.Ok out ->
  (idx < length (i1 out))%nat -> (jdx < length (i1 out))%nat ->
  nth idx (i1 out) NaN = neg (nth jdx (i1 out) NaN) ->
  is_zero (sin (add (nth jdx (i1 out) NaN)
                    (refraction n (nth jdx (i1 out) NaN)))) = false ->
  is_zero (cos (sub (nth jdx (i1 out) NaN)
                    (refraction n (nth jdx (i1 out) NaN)))) = false ->
  nth idx (It_1 out) NaN = nth jdx (It_1 out) NaN
  /\ nth idx (It_2 out) NaN = nth jdx (It_2 out) NaN.
Proof.
  intros H Hi Hj Hopp Hs Hc.
  destruct (calculate_interference_Ok _ _ _ _ _ _ _ _ _ _ H)
    as (c & _ & Hc1 & H1 & _).
  destruct (It_2_Ok _ _ _ _ _ _ _ _ _ _ H) as (c' & Hc2 & H2).
  rewrite Hc1 in Hc2. injection Hc2 as <-.
  rewrite H1, H2.
  rewrite !(nth_map_in _ _ _ NaN) by assumption.
  rewrite Hopp.
  destruct (intensity_even N c n h Ai _ Hs Hc) as [E1 E2].
  now rewrite E1, E2.
Qed.

Lemma regular_denominators (ii nn : R) :
  0 < ii < PI / 4 -> 1 < nn ->
  is_zero (sin (add (Num ii) (refraction (Num nn) (Num ii)))) = false
  /\ is_zero (cos (sub (Num ii) (refraction (Num nn) (Num ii)))) = false.
Proof.
  intros Hii Hnn. rewrite (refraction_regular ii nn Hii Hnn).
  destruct (regular_trig ii nn Hii Hnn)
    as (_ & _ & _ & _ & [Sd Sdt] & Cd & _).
  cbn. split; apply Reqb_false; lra.
Qed.

Lemma intensities_symmetric_witness :
  exists out : outputs,
    calculate_interference N lambda_ n h Ai a (Num (PI / 6)) (Num (PI / 6))
                           fixed_incident_angle = Py.Ok out
    /\ (0 < length (i1 out))%nat /\ (2 < length (i1 out))%nat
    /\ nth 0 (i1 out) NaN = neg (nth 2 (i1 out) NaN)
    /\ nth 0 (It_1 out) NaN = nth 2 (It_1 out) NaN
    /\ nth 0 (It_2 out) NaN = nth 2 (It_2 out) NaN.
Proof.
  pose proof PI_RGT_0 as Hpi.
  destruct module_level_settings as (_ & _ & _ & En & Hl).
  pose proof (arange_sweep (PI / 6) (PI / 6) ltac:(lra)) as Ha.
  destruct (sweep_length (PI / 6) (PI / 6) ltac:(lra) ltac:(lra))
    as (k & Hk & [Hk1 _]).
  rewrite Hk in Ha.
  assert (Hk2 : (2 <= k)%nat).
  { apply INR_le. change (INR 2) with (1 + 1). nra. }
  destruct (calculate_interference_returns
              N lambda_ n h Ai a (Num (PI / 6)) (Num (PI / 6))
              fixed_incident_angle _ Ha Hl) as [out Hout].
  destruct (calculate_interference_Ok _ _ _ _ _ _ _ _ _ _ Hout)
    as (c & Ha' & _).
  rewrite Ha in Ha'. remember (seq 0 (S k)) as sq eqn:Hsq.
  injection Ha' as Hi. subst sq.
  assert (Hlen : length (i1 out) = S k)
    by (rewrite <- Hi, length_map, length_seq; reflexivity).
  assert (H0 : nth 0 (i1 out) NaN = Num (- (PI / 6))).
  { rewrite <- Hi. cbn. f_equal. lra. }
  assert (H2 : nth 2 (i1 out) NaN = Num (PI / 6)).
  { rewrite <- Hi.
    rewrite (nth_map_in _ _ _ 0%nat) by (rewrite length_seq; lia).
    rewrite seq_nth by lia. f_equal. change (INR (0 + 2)) with (1 + 1).
    lra. }
  assert (Hopp : nth 0 (i1 out) NaN = neg (nth 2 (i1 out) NaN))
    by (rewrite H0, H2; reflexivity).
  exists out. split; [exact Hout|].
  split; [lia|]. split; [lia|]. split; [exact Hopp|].
  apply (intensities_symmetric _ _ _ _ _ _ _ _ _ out 0 2 Hout);
    try lia; try exact Hopp;
    rewrite H2, En; apply (regular_denominators (PI / 6) 10); lra.
Defined.

(** *** The incident amplitude parameter *)

(** X19. The parameter [Ai] only enters [It_2]: two calls that differ
    only in [Ai] and both return give the same sweep, the same [It_1],
    the same amplitude arrays and the same [orders] (the decomposed sum
    and the amplitudes read the module-level [Asi] and [Api]). *)
Theorem incident_amplitude_only_in_It_2
    (N : Z) (lambda_ n h Ai Ai' a theta_max delta_theta fixed_angle
       : float64) (out out' : outputs) :
  calculate_interference N lambda_ n h Ai a theta_max delta_theta
                         fixed_angle = Py.Ok out ->
  calculate_interference N lambda_ n h Ai' a theta_max delta_theta
                         fixed_angle = Py.Ok out' ->
  i1 out' = i1 out /\ It_1 out' = It_1 out
  /\ s_amplitudes out' = s_amplitudes out
  /\ p_amplitudes out' = p_amplitudes out
  /\ orders out' = orders out.
Proof.
  unfold calculate_interference.
  destruct (arange (neg theta_max) (add theta_max delta_theta) delta_theta)
    as [l|e]; cbn [Py.bind]; [|discriminate].
  destruct (pydiv (mul (Num 4) pi) lambda_) as [c|e];
    cbn [Py.bind]; [|discriminate].
  intros H H'. injection H as <-. injection H' as <-.
  cbn [i1 It_1 s_amplitudes p_amplitudes orders]. repeat split.
Qed.

Lemma module_level_call_returns_for (Ai' : float64) :
  exists out : outputs,
    calculate_interference N lambda_ n h Ai' a theta_max delta_theta
                           fixed_incident_angle = Py.Ok out.
Proof.
  destruct module_level_settings as (Et & Ed & _ & _ & Hl).
  rewrite Et, Ed.
  pose proof (arange_sweep (PI / 3) 0.001 ltac:(lra)) as Ha.
  exact (calculate_interference_returns _ _ _ _ _ _ _ _ _ _ Ha Hl).
Qed.

Lemma incident_amplitude_only_in_It_2_witness :
  exists out out' : outputs,
    calculate_interference N lambda_ n h Ai a theta_max delta_theta
                           fixed_incident_angle = Py.Ok out
    /\ calculate_interference N lambda_ n h (Num 2) a theta_max delta_theta
                              fixed_incident_angle = Py.Ok out'
    /\ i1 out' = i1 out /\ It_1 out' = It_1 out
    /\ s_amplitudes out' = s_amplitudes out
    /\ p_amplitudes out' = p_amplitudes out
    /\ orders out' = orders out.
Proof.
  destruct (module_level_call_returns_for Ai) as [out Hout].
  destruct (module_level_call_returns_for (Num 2)) as [out' Hout'].
  exists out, out'. split; [exact Hout|]. split; [exact Hout'|].
  exact (incident_amplitude_only_in_It_2
           N lambda_ n h Ai (Num 2) a theta_max delta_theta
           fixed_incident_angle out out' Hout Hout').
Defined.

(** *** A film of index 1 *)

Lemma sin_cos_a_Num :
  sin a = Num (Rtrigo_def.sin (25 * PI / 180))
  /\ cos a = Num (Rtrigo_def.cos (25 * PI / 180)).
Proof.
  unfold a, pi. cbn [mul]. rewrite div_Num by lra. split; reflexivity.
Qed.

Lemma unit_index_reflection (i : R) :
  - (PI / 2) <= i <= PI / 2 ->
  Rtrigo_def.sin (i + i) <> 0 -> Rtrigo_def.cos (i + i) <> 0 ->
  refraction (Num 1) (Num i) = Num i
  /\ Rs (Num i) (Num i) = Num 0 /\ Rp (Num i) (Num i) = Num 0.
Proof.
  intros Hi Hs Hc.
  assert (Hr : refraction (Num 1) (Num i) = Num i).
  { unfold refraction. cbn [sin]. rewrite div_Num by lra.
    replace (Rtrigo_def.sin i / 1) with (Rtrigo_def.sin i) by (field; lra).
    unfold arcsin. pose proof (SIN_bound i) as [B1 B2].
    rewrite !Rleb_true by assumption. cbn [andb]. f_equal.
    now apply asin_sin. }
  assert (E0 : i + - i = 0) by lra.
  repeat split; [exact Hr | |].
  - rewrite Rs_Num by exact Hs. rewrite E0, sin_0. f_equal.
    unfold Rdiv. ring.
  - unfold Rp, tan. cbn [sub neg add sin cos]. rewrite E0, sin_0, cos_0.
    rewrite (div_Num 0 1) by lra.
    rewrite (div_Num (Rtrigo_def.sin (i + i))) by exact Hc.
    rewrite div_Num.
    + f_equal. unfold Rdiv. ring.
    + unfold Rdiv. apply Rmult_integral_contrapositive.
      split; [exact Hs | now apply Rinv_neq_0_compat].
Qed.

Lemma closed_form_unit_index (cv hv a0 i : R) :
  - (PI / 2) <= i <= PI / 2 ->
  Rtrigo_def.sin (i + i) <> 0 -> Rtrigo_def.cos (i + i) <> 0 ->
  closed_form_at (Num cv) (Num 1) (Num hv) (Num a0) (Num i) = Num (a0 ^ 2).
Proof.
  intros Hi Hs Hc.
  destruct (unit_index_reflection i Hi Hs Hc) as (Hr & HRs & HRp).
  unfold closed_form_at. cbv zeta. rewrite Hr, HRs, HRp.
  unfold P. destruct sin_cos_a_Num as [Sa Ca]. rewrite Sa, Ca.
  cbn [mul cos]. rewrite !pow_Num. cbn [add sub neg mul].
  rewrite (div_Num _ 2) by lra. cbn [sin]. rewrite !pow_Num.
  cbn [mul add].
  set (p := (0 * Rtrigo_def.sin (25 * PI / 180)) ^ 2
            + (0 * Rtrigo_def.cos (25 * PI / 180)) ^ 2).
  assert (Hp : p = 0) by (unfold p; ring).
  rewrite Hp. rewrite div_Num.
  - cbn [mul]. f_equal. field.
  - replace (4 * 0) with 0 by ring. rewrite Rmult_0_l. simpl. lra.
Qed.


(** A call with film index 1 whose sweep starts at minus 30 degrees. *)
Lemma unit_index_call :
  exists out : outputs,
    calculate_interference N (Num 500) (Num 1) (Num 25000) (Num 1) a
      (Num (PI / 6)) (Num 1) fixed_incident_angle = Py.Ok out
    /\ (0 < length (i1 out))%nat
    /\ nth 0 (i1 out) NaN = Num (- (PI / 6))
    /\ nth 0 (It_2 out) NaN = Num (1 ^ 2).
Proof.
  pose proof PI_RGT_0 as Hpi.
  pose proof (arange_sweep (PI / 6) 1 ltac:(lra)) as Ha.
  destruct (sweep_length (PI / 6) 1 ltac:(lra) ltac:(lra)) as (k & Hk & _).
  rewrite Hk in Ha.
  destruct (calculate_interference_returns
              N (Num 500) (Num 1) (Num 25000) (Num 1) a (Num (PI / 6))
              (Num 1) fixed_incident_angle _ Ha)
    as [out Hout].
  { cbn. apply Reqb_false. lra. }
  destruct (calculate_interference_Ok _ _ _ _ _ _ _ _ _ _ Hout)
    as (c & Ha' & _).
  rewrite Ha in Ha'. remember (seq 0 (S k)) as sq eqn:Hsq.
  injection Ha' as Hi. subst sq.
  assert (Hlen : (0 < length (i1 out))%nat)
    by (rewrite <- Hi, length_map, length_seq; lia).
  assert (H0 : nth 0 (i1 out) NaN = Num (- (PI / 6))).
  { rewrite <- Hi. cbn. f_equal. lra. }
  exists out. repeat split; try assumption.
  destruct (It_2_Ok _ _ _ _ _ _ _ _ _ _ Hout) as (c2 & Hc2 & H2).
  assert (Ec : c2 = Num (4 * PI / 500)).
  { unfold pydiv in Hc2. cbn [is_zero] in Hc2.
    rewrite Reqb_false in Hc2 by lra. injection Hc2 as <-.
    now rewrite Reqb_false by lra. }
  rewrite H2, Ec, (nth_map_in _ _ _ NaN) by exact Hlen. rewrite H0.
  apply closed_form_unit_index.
  - lra.
  - replace (- (PI / 6) + - (PI / 6)) with (- (PI / 3)) by lra.
    rewrite sin_neg, sin_PI3. pose proof sqrt3_bounds. lra.
  - replace (- (PI / 6) + - (PI / 6)) with (- (PI / 3)) by lra.
    rewrite cos_neg, cos_PI3. lra.
Qed.

Lemma It_2_bounded_witness :
  exists out : outputs,
    calculate_interference N (Num 500) (Num 1) (Num 25000) (Num 1) a
      (Num (PI / 6)) (Num 1) fixed_incident_angle = Py.Ok out
    /\ nth 0 (It_2 out) NaN = Num (1 ^ 2)
    /\ 0 <= 1 ^ 2 <= 1 ^ 2.
Proof.
  destruct unit_index_call as (out & Hout & _ & _ & Hv).
  exists out. split; [exact Hout|]. split; [exact Hv|].
  exact (It_2_bounded _ _ _ _ _ _ _ _ _ _ out 0 Hout Hv).
Defined.


End SimMore.

(* ================================================================== *)
(** * Properties of the binary64 embedding *)

(** ** Rounding, signs and NaN *)

Section B64Facts.
Import SpecFloat B64.

Lemma shr_1_nonneg (mrs : shr_record) :
  (0 <= shr_m mrs)%Z -> (0 <= shr_m (shr_1 mrs))%Z.
Proof.
  destruct mrs as [m r s]; simpl.
  destruct m as [|p|p]; simpl; try lia; destruct p; simpl; lia.
Qed.

Lemma iter_pos_shr_1_nonneg (p : positive) (mrs : shr_record) :
  (0 <= shr_m mrs)%Z -> (0 <= shr_m (iter_pos shr_1 p mrs))%Z.
Proof.
  revert mrs; induction p as [p IH|p IH|]; intros mrs H; simpl.
  - apply IH, IH, shr_1_nonneg, H.
  - apply IH, IH, H.
  - apply shr_1_nonneg, H.
Qed.

Lemma shr_fexp_nonneg (mx ex : Z) (lx : location) :
  (0 <= mx)%Z -> (0 <= shr_m (fst (shr_fexp prec emax mx ex lx)))%Z.
Proof.
  intros H; unfold shr_fexp, shr.
  assert (H0 : (0 <= shr_m (shr_record_of_loc mx lx))%Z).
  { destruct lx as [|[| |]]; simpl; exact H. }
  destruct (fexp prec emax (Zdigits2 mx + ex) - ex)%Z; simpl; auto.
  apply iter_pos_shr_1_nonneg, H0.
Qed.

Lemma round_nearest_even_nonneg (mx : Z) (lx : location) :
  (0 <= mx)%Z -> (0 <= round_nearest_even mx lx)%Z.
Proof.
  intros H; destruct lx as [|[| |]]; simpl; try lia.
  destruct (Z.even mx); lia.
Qed.

(** Rounding never changes the sign and never produces NaN from a
    non-negative significand. *)
Lemma binary_round_aux_has_sign (s : bool) (mx ex : Z) (lx : location) :
  (0 <= mx)%Z -> has_sign s (binary_round_aux prec emax s mx ex lx) = true.
Proof.
  intros H; unfold binary_round_aux.
  pose proof (shr_fexp_nonneg mx ex lx H) as H1.
  destruct (shr_fexp prec emax mx ex lx) as [mrs' e']; simpl in H1.
  pose proof (shr_fexp_nonneg _ e' loc_Exact
                (round_nearest_even_nonneg _ (loc_of_shr_record mrs') H1)) as H2.
  destruct (shr_fexp prec emax _ e' loc_Exact) as [mrs'' e'']; simpl in H2.
  destruct (shr_m mrs'') as [|p|p]; simpl.
  - apply eqb_reflx.
  - destruct (_ <=? _)%Z; simpl; apply eqb_reflx.
  - lia.
Qed.





Lemma div_core_nonneg (m1 m2 : positive) (e1 e2 : Z) :
  (0 <= fst (fst (SFdiv_core_binary prec emax (Zpos m1) e1 (Zpos m2) e2)))%Z.
Proof.
  unfold SFdiv_core_binary.
  set (s := (e1 - e2 - _)%Z).
  set (m' := match s with Zpos _ => Z.shiftl (Zpos m1) s | Z0 => Zpos m1
                     | Zneg _ => 0%Z end).
  assert (Hm : (0 <= m')%Z).
  { subst m'; destruct s; try lia. apply Z.shiftl_nonneg; lia. }
  pose proof (Z_div_mod m' (Zpos m2) eq_refl) as H.
  destruct (Z.div_eucl m' (Zpos m2)) as [q r]; simpl.
  destruct H as [Hq Hr]. nia.
Qed.


(** Products and quotients of non-negative numbers with a positive
    finite operand: no NaN, no sign. *)
Lemma mul_has_sign_pos (x y : float) :
  has_sign false x = true -> positive_finite y = true ->
  has_sign false (mul x y) = true.
Proof.
  unfold mul.
  destruct x as [[|]|[|]| |[|] mx ex], y as [| | |[|] my ey];
    simpl; intros Hx Hy; try discriminate; try reflexivity.
  apply (binary_round_aux_has_sign false); lia.
Qed.

Lemma div_has_sign_pos (x y : float) :
  positive_finite x = true -> has_sign false y = true ->
  has_sign false (div x y) = true.
Proof.
  unfold div.
  destruct x as [| | |[|] mx ex], y as [[|]|[|]| |[|] my ey];
    simpl; intros Hx Hy; try discriminate; try reflexivity.
  pose proof (div_core_nonneg mx my ex ey) as H.
  destruct (SFdiv_core_binary prec emax (Zpos mx) ex (Zpos my) ey)
    as [[mz ez] lz]; simpl in H.
  apply (binary_round_aux_has_sign false); exact H.
Qed.








(** [np.sqrt] of a negative number is NaN. *)
Lemma sqrt_negative (x : float) : lt x zero = true -> sqrt x = nan.
Proof.
  destruct x as [[|]|[|]| |[|] mx ex]; simpl; try discriminate; reflexivity.
Qed.

Lemma mul_nan_l (y : float) : mul nan y = nan.
Proof. destruct y; reflexivity. Qed.

Lemma mul_nan_r (x : float) : mul x nan = nan.
Proof. destruct x; reflexivity. Qed.

Lemma div_nan_r (x : float) : div x nan = nan.
Proof. destruct x; reflexivity. Qed.

(** *** Values that round to themselves *)

Lemma digits2_pos_size (p : positive) : digits2_pos p = Pos.size p.
Proof. induction p; simpl; congruence. Qed.

Lemma iter_pos_iter {A} (f : A -> A) (p : positive) (x : A) :
  iter_pos f p x = Pos.iter f x p.
Proof.
  revert x; induction p as [p IH|p IH|]; intros x; simpl.
  - rewrite !IH. rewrite <- !Pos.iter_swap. reflexivity.
  - rewrite !IH. reflexivity.
  - reflexivity.
Qed.

Lemma shr_1_xO (q : positive) :
  shr_1 (Build_shr_record (Zpos (xO q)) false false)
  = Build_shr_record (Zpos q) false false.
Proof. reflexivity. Qed.

Lemma shr_iter_xO (n q : positive) :
  Pos.iter shr_1 (Build_shr_record (Zpos (Pos.iter xO q n)) false false) n
  = Build_shr_record (Zpos q) false false.
Proof.
  induction n as [|n IH] using Pos.peano_ind.
  - reflexivity.
  - rewrite !Pos.iter_succ.
    rewrite <- Pos.iter_swap. rewrite shr_1_xO. exact IH.
Qed.

Lemma size_iter_xO (n q : positive) :
  Pos.size (Pos.iter xO q n) = (Pos.size q + n)%positive.
Proof.
  induction n as [|n IH] using Pos.peano_ind.
  - simpl. lia.
  - rewrite Pos.iter_succ. simpl. rewrite IH. lia.
Qed.

(** A 53-bit significand with an exponent in range is left as it is. *)
Lemma binary_round_aux_canonical (s : bool) (mz : positive) (ez : Z) :
  Pos.size mz = 53%positive -> (-1074 <= ez <= 971)%Z ->
  binary_round_aux prec emax s (Zpos mz) ez loc_Exact = S754_finite s mz ez.
Proof.
  intros Hd He. unfold binary_round_aux, shr_fexp.
  cbn [Zdigits2 shr_record_of_loc]. rewrite digits2_pos_size, Hd.
  replace (fexp prec emax (53 + ez) - ez)%Z with 0%Z
    by (unfold fexp, emin, prec, emax; lia).
  cbn [shr shr_m loc_of_shr_record round_nearest_even Zdigits2].
  rewrite digits2_pos_size, Hd.
  replace (fexp prec emax (53 + ez) - ez)%Z with 0%Z
    by (unfold fexp, emin, prec, emax; lia).
  cbn [shr shr_m].
  replace (ez <=? emax - prec)%Z with true; [reflexivity|].
  symmetry; apply Z.leb_le; unfold emax, prec; lia.
Qed.

(** Trailing zeros beyond 53 bits are shifted out exactly. *)
Lemma binary_round_aux_shift (s : bool) (q n : positive) (ez : Z) :
  Pos.size q = 53%positive -> (-1074 <= ez + Zpos n <= 971)%Z ->
  binary_round_aux prec emax s (Zpos (Pos.iter xO q n)) ez loc_Exact
  = S754_finite s q (ez + Zpos n).
Proof.
  intros Hd He. unfold binary_round_aux, shr_fexp.
  cbn [Zdigits2 shr_record_of_loc]. rewrite digits2_pos_size, size_iter_xO, Hd.
  replace (fexp prec emax (Zpos (53 + n) + ez) - ez)%Z with (Zpos n)
    by (unfold fexp, emin, prec, emax; lia).
  cbn [shr]. rewrite iter_pos_iter, shr_iter_xO.
  cbn [shr_m loc_of_shr_record round_nearest_even Zdigits2].
  rewrite digits2_pos_size, Hd.
  replace (fexp prec emax (53 + (ez + Zpos n)) - (ez + Zpos n))%Z with 0%Z
    by (unfold fexp, emin, prec, emax; lia).
  cbn [shr shr_m].
  replace (ez + Zpos n <=? emax - prec)%Z with true; [reflexivity|].
  symmetry; apply Z.leb_le; unfold emax, prec; lia.
Qed.

Lemma shl_shl (r : positive) (a : Z) (b : positive) :
  (0 <= a)%Z -> Pos.iter xO (shl r a) b = shl r (a + Zpos b).
Proof.
  destruct a as [|k|k]; intros H; try lia; simpl; [reflexivity|].
  rewrite Pos.add_comm. symmetry; apply Pos.iter_add.
Qed.

Lemma size_shl (r : positive) (a : Z) :
  (0 <= a)%Z -> Zpos (Pos.size (shl r a)) = (Zpos (Pos.size r) + a)%Z.
Proof.
  destruct a as [|k|k]; intros H; try lia; simpl; [lia|].
  rewrite size_iter_xO; lia.
Qed.

Lemma Zpos_shl (r : positive) (a : Z) :
  (0 <= a)%Z -> Zpos (shl r a) = (Zpos r * 2 ^ a)%Z.
Proof.
  destruct a as [|k|k]; intros H; try lia; simpl shl; [lia|].
  induction k as [|k IH] using Pos.peano_ind.
  - simpl. lia.
  - rewrite Pos.iter_succ, Pos2Z.inj_xO, IH, Pos2Z.inj_succ, Z.pow_succ_r; lia.
Qed.

(** Rounding a value that fits in 53 bits returns it, normalised. *)
Lemma binary_round_exact (s : bool) (r : positive) (j e : Z) :
  (0 <= j)%Z -> (Zpos (Pos.size r) <= 53)%Z ->
  (-1074 <= e + j - (53 - Zpos (Pos.size r)) <= 971)%Z ->
  binary_round prec emax s (shl r j) e
  = S754_finite s (shl r (53 - Zpos (Pos.size r)))
                  (e + j - (53 - Zpos (Pos.size r))).
Proof.
  intros Hj Hd He. set (t := (53 - Zpos (Pos.size r))%Z) in *.
  assert (Hs : Pos.size (shl r t) = 53%positive).
  { pose proof (size_shl r t). lia. }
  unfold binary_round. rewrite digits2_pos_size, (size_shl r j Hj).
  replace (fexp prec emax (Zpos (Pos.size r) + j + e)) with (e + j - t)%Z
    by (unfold fexp, emin, prec, emax; lia).
  unfold shl_align.
  destruct (e + j - t - e)%Z as [|n|n] eqn:En.
  - replace j with t by lia.
    rewrite (binary_round_aux_canonical s _ e Hs) by lia.
    f_equal; lia.
  - replace j with (t + Zpos n)%Z by lia.
    rewrite <- (shl_shl r t n) by lia.
    rewrite (binary_round_aux_shift s _ n e Hs) by lia.
    f_equal; lia.
  - assert (E : Pos.iter xO (shl r j) n = shl r t).
    { rewrite (shl_shl r j n Hj). f_equal; lia. }
    rewrite E.
    apply (binary_round_aux_canonical s _ _ Hs); lia.
Qed.

Lemma is_dyadic_normalised (s : bool) (r : positive) (t p : Z) :
  (0 <= t)%Z ->
  is_dyadic (S754_finite s (shl r t) (p - t)) (if s then Zneg r else Zpos r) p
  = true.
Proof.
  intros Ht; unfold is_dyadic.
  replace (Z.min (p - t) p) with (p - t)%Z by lia.
  replace (p - t - (p - t))%Z with 0%Z by lia.
  replace (p - (p - t))%Z with t by lia.
  apply Z.eqb_eq. destruct s.
  - change (Zneg (shl r t)) with (- Zpos (shl r t))%Z.
    change (Zneg r) with (- Zpos r)%Z. rewrite (Zpos_shl r t Ht); lia.
  - rewrite (Zpos_shl r t Ht); lia.
Qed.

Lemma half_eq : dec 5 (-1) = S754_finite false 4503599627370496 (-53).
Proof. reflexivity. Qed.

Lemma of_Z_exact (s : bool) (p : positive) :
  (Zpos (Pos.size p) <= 53)%Z ->
  of_Z (if s then Zneg p else Zpos p)
  = S754_finite s (shl p (53 - Zpos (Pos.size p))) (- (53 - Zpos (Pos.size p))).
Proof.
  intros Hd.
  pose proof (binary_round_exact s p 0 0 (Z.le_refl 0) Hd) as H.
  cbn [shl] in H. unfold of_Z, binary_normalize.
  destruct s; rewrite H; try (f_equal; lia); lia.
Qed.

Lemma sub_half_exact (s : bool) (p : positive) :
  let r := if s then xI p else Pos.pred_double p in
  (Zpos (Pos.size r) <= 53)%Z -> (Zpos (Pos.size p) <= 53)%Z ->
  sub (of_Z (if s then Zneg p else Zpos p)) (dec 5 (-1))
  = S754_finite s (shl r (53 - Zpos (Pos.size r)))
                  (-1 - (53 - Zpos (Pos.size r))).
Proof.
  intros r Hr Hp. rewrite (of_Z_exact s p Hp), half_eq.
  set (t := (53 - Zpos (Pos.size p))%Z).
  assert (Ht : (0 <= t <= 52)%Z) by (subst t; lia).
  unfold sub, SFsub.
  replace (Z.min (- t) (-53)) with (-53)%Z by lia.
  assert (E1 : fst (shl_align (shl p t) (- t) (-53)) = shl p 53).
  { unfold shl_align.
    replace (-53 - - t)%Z with (Zneg (Pos.size p)) by lia.
    cbn [fst]. rewrite (shl_shl p t) by lia. f_equal; lia. }
  assert (E2 : fst (shl_align 4503599627370496 (-53) (-53))
               = 4503599627370496%positive) by reflexivity.
  rewrite E1, E2.
  assert (EA : (cond_Zopp s (Zpos (shl p 53)) - cond_Zopp false 4503599627370496
               = if s then Zneg (shl r 52) else Zpos (shl r 52))%Z).
  { unfold cond_Zopp.
    assert (H53 : Zpos (shl p 53) = (Zpos p * 9007199254740992)%Z)
      by (rewrite Zpos_shl by lia; reflexivity).
    assert (H52 : Zpos (shl r 52) = (Zpos r * 4503599627370496)%Z)
      by (rewrite Zpos_shl by lia; reflexivity).
    subst r; destruct s.
    - change (Zneg (shl p~1 52)) with (- Zpos (shl p~1 52))%Z.
      rewrite H53, H52. lia.
    - rewrite H53, H52. rewrite Pos.pred_double_spec. lia. }
  rewrite EA. unfold binary_normalize.
  pose proof (binary_round_exact s r 52 (-53)) as H.
  destruct s; rewrite H; try lia; f_equal; lia.
Qed.

(** For an order [m] with [-2^52 < m <= 2^52], [m - 0.5] is computed
    exactly. *)
Lemma half_order_exact (m : Z) :
  (- 2 ^ 52 < m <= 2 ^ 52)%Z ->
  exists f, (x <- as_float (Int m) ;; Py.Ok (Float (sub x (dec 5 (-1)))))
            = Py.Ok (Float f)
            /\ is_dyadic f (2 * m - 1) (-1) = true.
Proof.
  change (2 ^ 52)%Z with 4503599627370496%Z. intros Hm.
  destruct m as [|p|p].
  - eexists; split; reflexivity.
  - assert (Hp : (Zpos (Pos.size p) <= 53)%Z).
    { pose proof (Pos.size_le p) as H.
      destruct (Z.le_gt_cases (Zpos (Pos.size p)) 53) as [|G]; auto.
      exfalso.
      assert ((2 ^ 54 <= 2 ^ Zpos (Pos.size p))%Z)
        by (apply Z.pow_le_mono_r; lia).
      change (2 ^ 54)%Z with 18014398509481984%Z in *.
      assert (Zpos (2 ^ Pos.size p) <= Zpos p~0)%Z by exact H.
      rewrite Pos2Z.inj_pow in *. lia. }
    assert (Hr : (Zpos (Pos.size (Pos.pred_double p)) <= 53)%Z).
    { pose proof (Pos.size_le (Pos.pred_double p)) as H.
      destruct (Z.le_gt_cases (Zpos (Pos.size (Pos.pred_double p))) 53)
        as [|G]; auto.
      exfalso.
      assert ((2 ^ 54 <= 2 ^ Zpos (Pos.size (Pos.pred_double p)))%Z)
        by (apply Z.pow_le_mono_r; lia).
      change (2 ^ 54)%Z with 18014398509481984%Z in *.
      assert (Zpos (2 ^ Pos.size (Pos.pred_double p))
              <= Zpos (Pos.pred_double p)~0)%Z by exact H.
      rewrite Pos2Z.inj_pow in *. rewrite Pos2Z.inj_xO in *.
      rewrite Pos.pred_double_spec in *. lia. }
    pose proof (sub_half_exact false p Hr Hp) as E. cbv zeta in E.
    pose proof (of_Z_exact false p Hp) as E0. cbv beta iota in E0.
    assert (Ea : as_float (Int (Zpos p)) = Py.Ok (of_Z (Zpos p))).
    { cbn [as_float]; cbv zeta; rewrite E0; reflexivity. }
    rewrite Ea. cbn [Py.bind]. rewrite E.
    eexists; split; [reflexivity|].
    replace (2 * Zpos p - 1)%Z with (Zpos (Pos.pred_double p))
      by (rewrite Pos.pred_double_spec; lia).
    apply (is_dyadic_normalised false); lia.
  - assert (Hp : (Zpos (Pos.size p) <= 53)%Z).
    { pose proof (Pos.size_le p) as H.
      destruct (Z.le_gt_cases (Zpos (Pos.size p)) 53) as [|G]; auto.
      exfalso.
      assert ((2 ^ 54 <= 2 ^ Zpos (Pos.size p))%Z)
        by (apply Z.pow_le_mono_r; lia).
      change (2 ^ 54)%Z with 18014398509481984%Z in *.
      assert (Zpos (2 ^ Pos.size p) <= Zpos p~0)%Z by exact H.
      rewrite Pos2Z.inj_pow in *. lia. }
    assert (Hr : (Zpos (Pos.size (p~1)) <= 53)%Z).
    { pose proof (Pos.size_le (p~1)) as H.
      destruct (Z.le_gt_cases (Zpos (Pos.size (p~1))) 53)
        as [|G]; auto.
      exfalso.
      assert ((2 ^ 54 <= 2 ^ Zpos (Pos.size (p~1)))%Z)
        by (apply Z.pow_le_mono_r; lia).
      change (2 ^ 54)%Z with 18014398509481984%Z in *.
      assert (Zpos (2 ^ Pos.size (p~1)) <= Zpos (p~1)~0)%Z by exact H.
      rewrite Pos2Z.inj_pow in *. lia. }
    pose proof (sub_half_exact true p Hr Hp) as E. cbv zeta in E.
    pose proof (of_Z_exact true p Hp) as E0. cbv beta iota in E0.
    assert (Ea : as_float (Int (Zneg p)) = Py.Ok (of_Z (Zneg p))).
    { cbn [as_float]; cbv zeta; rewrite E0; reflexivity. }
    rewrite Ea. cbn [Py.bind]. rewrite E.
    eexists; split; [reflexivity|].
    replace (2 * Zneg p - 1)%Z with (Zneg (p~1)) by lia.
    apply (is_dyadic_normalised true); lia.
Qed.

End B64Facts.

(** ** The thickness calculator in binary64 *)

Section Epi64Facts.
Import SpecFloat B64 Epi64.

Lemma _calc_k_gt (n1 n2 : float) (m : Z) :
  gt n2 n1 = true -> _calc_k n1 n2 m = Py.Ok (Int m).
Proof. unfold _calc_k; intros ->; reflexivity. Qed.

Lemma _calc_k_not_gt (n1 n2 : float) (m : Z) :
  gt n2 n1 = false ->
  _calc_k n1 n2 m
  = (f <- as_float (Int m) ;; Py.Ok (Float (sub f (dec 5 (-1))))).
Proof. unfold _calc_k; intros ->; reflexivity. Qed.

Lemma two_has_sign : has_sign false (of_Z 2) = true.
Proof. reflexivity. Qed.

(** The denominator of line 71 is a non-negative number. *)
Lemma thickness_denominator_sign (self : calculator) :
  positive_finite (n1 self) = true ->
  positive_finite (cos_theta1 self) = true ->
  positive_finite (nu_tilde self) = true ->
  has_sign false
    (mul (mul (mul (of_Z 2) (n1 self)) (cos_theta1 self)) (nu_tilde self))
  = true.
Proof.
  intros Hn Hc Hv.
  repeat apply mul_has_sign_pos; auto using two_has_sign.
Qed.

Lemma calculate_thickness_value (self : calculator) (kf : float) :
  as_float (k self) = Py.Ok kf ->
  calculate_thickness self
  = (let v := div kf (mul (mul (mul (of_Z 2) (n1 self)) (cos_theta1 self))
                          (nu_tilde self)) in
     (set_d self v, Py.Ok v)).
Proof.
  intros Hk; unfold calculate_thickness, thickness_value.
  rewrite Hk; reflexivity.
Qed.

Lemma as_float_raises (n : number) (e : Py.exn) :
  as_float n = Py.Raise e -> e = Py.OverflowError.
Proof.
  destruct n as [z|x]; cbn [as_float].
  - destruct (is_inf (of_Z z)); intros H; inversion H; reflexivity.
  - discriminate.
Qed.

Lemma py_pow_raises (x : float) (n : positive) (e : Py.exn) :
  py_pow x n = Py.Raise e -> e = Py.OverflowError.
Proof.
  unfold py_pow; destruct (_ && _); intros H; inversion H; reflexivity.
Qed.




(** A negative radicand: the cosine is NaN and so is every thickness. *)
Lemma compute_thickness_negative_radicand (np_sin : float -> float)
    (n1 n2 theta0_deg nu_tilde : float) (m : Z) :
  lt (radicand np_sin n1 theta0_deg) zero = true ->
  compute_thickness np_sin n1 n2 theta0_deg nu_tilde m
  = if is_inf (of_Z m) then Py.Raise Py.OverflowError else Py.Ok nan.
Proof.
  intros H; unfold compute_thickness, __init__, _calc_cos_theta1.
  rewrite (sqrt_negative _ H); unfold _calc_k.
  assert (Hn : forall kf x y, div kf (mul (mul x nan) y) = nan).
  { intros; rewrite mul_nan_r, mul_nan_l, div_nan_r; reflexivity. }
  destruct (gt n2 n1); cbn [Py.bind as_float].
  - unfold calculate_thickness, thickness_value; cbn.
    destruct (is_inf (of_Z m)); cbn [Py.bind snd]; [reflexivity|].
    now rewrite Hn.
  - destruct (is_inf (of_Z m)); cbn [Py.bind]; [reflexivity|].
    unfold calculate_thickness, thickness_value; cbn.
    now rewrite Hn.
Qed.

(** *** The order term *)

(** C2, amended. The order term stored at construction is the integer
    [m] itself, exactly, when [n2 > n1].  When [n2 > n1] does not hold
    it is the double [float(m) - 0.5], and that double is [m - 0.5]
    exactly for every [m] with [-2^52 < m <= 2^52]; beyond that range the
    result is rounded, and an [m] outside the double range makes the
    constructor raise OverflowError. *)
Theorem k_selection_binary64 (np_sin : float -> float)
    (n1 n2 theta0_deg nu_tilde : float) (m : Z) :
  (gt n2 n1 = true ->
     exists self, __init__ np_sin n1 n2 theta0_deg nu_tilde m = Py.Ok self
                  /\ k self = Int m)
  /\ (gt n2 n1 = false -> (- 2 ^ 52 < m <= 2 ^ 52)%Z ->
     exists self f,
       __init__ np_sin n1 n2 theta0_deg nu_tilde m = Py.Ok self
       /\ k self = Float f /\ is_dyadic f (2 * m - 1) (-1) = true).
Proof.
  unfold __init__. split.
  - intros H. rewrite (_calc_k_gt _ _ _ H). cbn [Py.bind].
    eexists; split; reflexivity.
  - intros H Hm. rewrite (_calc_k_not_gt _ _ _ H).
    destruct (half_order_exact m Hm) as (f & Hf & Hd).
    rewrite Hf. cbn [Py.bind].
    eexists; exists f. split; [reflexivity|]. split; [reflexivity | exact Hd].
Qed.

Lemma k_selection_binary64_witness :
  (gt (dec 268 (-2)) (dec 265 (-2)) = true /\
     exists self,
       __init__ sin_known (dec 265 (-2)) (dec 268 (-2)) (of_Z 15)
                (of_Z 1000) 1 = Py.Ok self
       /\ k self = Int 1)
  /\ (gt (dec 265 (-2)) (dec 265 (-2)) = false /\
      (- 2 ^ 52 < 1 <= 2 ^ 52)%Z /\
     exists self f,
       __init__ sin_known (dec 265 (-2)) (dec 265 (-2)) (of_Z 15)
                (of_Z 1000) 1 = Py.Ok self
       /\ k self = Float f /\ is_dyadic f (2 * 1 - 1) (-1) = true).
Proof.
  assert (H1 : gt (dec 268 (-2)) (dec 265 (-2)) = true)
    by (vm_compute; reflexivity).
  assert (H2 : gt (dec 265 (-2)) (dec 265 (-2)) = false)
    by (vm_compute; reflexivity).
  assert (H3 : (- 2 ^ 52 < 1 <= 2 ^ 52)%Z) by (vm_compute; split; congruence).
  split; [split; [exact H1|] | split; [exact H2 | split; [exact H3|]]].
  - exact (proj1 (k_selection_binary64 sin_known (dec 265 (-2))
                    (dec 268 (-2)) (of_Z 15) (of_Z 1000) 1) H1).
  - exact (proj2 (k_selection_binary64 sin_known (dec 265 (-2))
                    (dec 265 (-2)) (of_Z 15) (of_Z 1000) 1) H2 H3).
Defined.

(** With [n2 <= n1] and [m = 2^53 + 1] the order term is the double
    2^53, not [m - 0.5]; with [m = 10^400] nothing is computed. *)
Lemma k_not_exact_for_large_m :
  gt (dec 265 (-2)) (dec 265 (-2)) = false
  /\ _calc_k (dec 265 (-2)) (dec 265 (-2)) (2 ^ 53 + 1)
     = Py.Ok (Float (of_Z (2 ^ 53)))
  /\ is_dyadic (of_Z (2 ^ 53)) (2 * (2 ^ 53 + 1) - 1) (-1) = false
  /\ is_dyadic (of_Z (2 ^ 53)) (2 ^ 53) 0 = true
  /\ _calc_k (dec 265 (-2)) (dec 265 (-2)) (10 ^ 400)
     = Py.Raise Py.OverflowError.
Proof. repeat split; vm_compute; reflexivity. Qed.

(** *** A negative radicand *)

(** C3, amended. When the radicand computed by [_calc_cos_theta1] is
    negative nothing signals it: the method returns NaN, the object
    stores NaN, and [calculate_thickness] returns NaN to the caller.
    The only exception on that path is the OverflowError of an order [m]
    outside the double range, which has nothing to do with the
    radicand. *)
Theorem negative_radicand_binary64 (np_sin : float -> float)
    (n1 n2 theta0_deg nu_tilde : float) (m : Z) :
  lt (radicand np_sin n1 theta0_deg) zero = true ->
  _calc_cos_theta1 np_sin n1 theta0_deg = nan
  /\ compute_thickness np_sin n1 n2 theta0_deg nu_tilde m
     = if is_inf (of_Z m) then Py.Raise Py.OverflowError else Py.Ok nan.
Proof.
  intros H. split.
  - unfold _calc_cos_theta1. apply sqrt_negative, H.
  - apply compute_thickness_negative_radicand, H.
Qed.

Lemma negative_radicand_binary64_witness :
  lt (radicand sin_known (dec 5 (-1)) (of_Z 90)) zero = true
  /\ _calc_cos_theta1 sin_known (dec 5 (-1)) (of_Z 90) = nan
  /\ compute_thickness sin_known (dec 5 (-1)) (of_Z 1) (of_Z 90)
                       (of_Z 1000) 1
     = Py.Ok nan.
Proof.
  assert (H : lt (radicand sin_known (dec 5 (-1)) (of_Z 90)) zero = true)
    by (vm_compute; reflexivity).
  split; [exact H|].
  exact (negative_radicand_binary64 sin_known (dec 5 (-1)) (of_Z 1)
           (of_Z 90) (of_Z 1000) 1 H).
Defined.

(** *** The thickness *)

(** C5, amended. [calculate_thickness] returns and stores the quotient
    [k / (((2 * n1) * cos_theta1) * nu_tilde)] of double arithmetic.
    When [k] (as the double it is divided as), [n1], [cos_theta1] and
    [nu_tilde] are positive doubles, that value is never negative and
    never NaN: it is a positive double, +inf, or +0.0 when the
    denominator overflows or the quotient underflows. *)
Theorem thickness_never_negative (self : calculator) (kf : float) :
  as_float (k self) = Py.Ok kf ->
  positive_finite kf = true ->
  positive_finite (n1 self) = true ->
  positive_finite (cos_theta1 self) = true ->
  positive_finite (nu_tilde self) = true ->
  let v := div kf (mul (mul (mul (of_Z 2) (n1 self)) (cos_theta1 self))
                       (nu_tilde self)) in
  calculate_thickness self = (set_d self v, Py.Ok v)
  /\ has_sign false v = true.
Proof.
  intros Hk Hkf Hn Hc Hv v. split.
  - exact (calculate_thickness_value self kf Hk).
  - apply div_has_sign_pos; [exact Hkf|].
    apply thickness_denominator_sign; assumption.
Qed.

Lemma thickness_never_negative_witness :
  let self := mk (dec 265 (-2)) (dec 268 (-2)) zero (of_Z 1000) 1
                 (of_Z 1) (Int 1) None None None in
  let v := div (of_Z 1)
               (mul (mul (mul (of_Z 2) (dec 265 (-2))) (of_Z 1))
                    (of_Z 1000)) in
  __init__ sin_known (dec 265 (-2)) (dec 268 (-2)) zero (of_Z 1000) 1
  = Py.Ok self
  /\ calculate_thickness self = (set_d self v, Py.Ok v)
  /\ has_sign false v = true.
Proof.
  intros self v. split; [vm_compute; reflexivity|].
  apply (thickness_never_negative self (of_Z 1)); vm_compute; reflexivity.
Defined.

(** An index and a wavenumber of 1e200 at normal incidence, [m = 1] and
    [n2 > n1]: the index exceeds the sine, [k] is 1, and the thickness is
    0.0, not a positive number. *)
Lemma thickness_zero_for_huge_index :
  gt (dec 1 200) (sin_known (deg2rad zero)) = true
  /\ (exists self,
        __init__ sin_known (dec 1 200) (dec 2 200) zero (dec 1 200) 1
        = Py.Ok self
        /\ k self = Int 1 /\ cos_theta1 self = of_Z 1)
  /\ compute_thickness sin_known (dec 1 200) (dec 2 200) zero (dec 1 200) 1
     = Py.Ok zero
  /\ gt zero zero = false.
Proof.
  split; [vm_compute; reflexivity|]. split; [|split; vm_compute; reflexivity].
  exists (mk (dec 1 200) (dec 2 200) zero (dec 1 200) 1 (of_Z 1) (Int 1)
             None None None).
  repeat split; vm_compute; reflexivity.
Qed.

(** *** The sensitivities *)




(** *** Exceptions and what they leave behind *)

Lemma d_dn1_value_raises (self : calculator) (e : Py.exn) :
  d_dn1_value self = Py.Raise e -> e = Py.OverflowError.
Proof.
  unfold d_dn1_value.
  destruct (py_pow (n1 self) 2) as [p|e1] eqn:Ep; cbn [Py.bind].
  - destruct (as_float (py_neg (k self))) as [kf|e2] eqn:Ek; cbn [Py.bind].
    + discriminate.
    + intros H; injection H as <-. exact (as_float_raises _ _ Ek).
  - intros H; injection H as <-. exact (py_pow_raises _ _ _ Ep).
Qed.

Lemma d_dnu_value_raises (self : calculator) (e : Py.exn) :
  d_dnu_value self = Py.Raise e -> e = Py.OverflowError.
Proof.
  unfold d_dnu_value.
  destruct (py_pow (nu_tilde self) 2) as [p|e1] eqn:Ep; cbn [Py.bind].
  - destruct (as_float (py_neg (k self))) as [kf|e2] eqn:Ek; cbn [Py.bind].
    + discriminate.
    + intros H; injection H as <-. exact (as_float_raises _ _ Ek).
  - intros H; injection H as <-. exact (py_pow_raises _ _ _ Ep).
Qed.

(** X21. [calculate_thickness] raises nothing but OverflowError, only
    when [k] is an integer too large for a double, and then leaves the
    object as it was. *)
Theorem calculate_thickness_raises_only_overflow
    (self : calculator) (e : Py.exn) :
  snd (calculate_thickness self) = Py.Raise e ->
  e = Py.OverflowError
  /\ fst (calculate_thickness self) = self
  /\ exists z, k self = Int z /\ is_inf (of_Z z) = true.
Proof.
  unfold calculate_thickness, thickness_value.
  destruct (k self) as [z|x] eqn:Ek; cbn [as_float].
  - destruct (is_inf (of_Z z)) eqn:Ei; cbn [Py.bind fst snd].
    + intros H; injection H as <-. repeat split. exists z. split; auto.
    + discriminate.
  - cbn [Py.bind snd]. discriminate.
Qed.

Lemma calculate_thickness_raises_only_overflow_witness :
  let self := mk (dec 265 (-2)) (dec 268 (-2)) zero (of_Z 1000) (2 ^ 1024)
                 (of_Z 1) (Int (2 ^ 1024)) None None None in
  snd (calculate_thickness self) = Py.Raise Py.OverflowError
  /\ fst (calculate_thickness self) = self.
Proof.
  intros self.
  assert (H : snd (calculate_thickness self) = Py.Raise Py.OverflowError)
    by (vm_compute; reflexivity).
  split; [exact H|].
  exact (proj1 (proj2 (calculate_thickness_raises_only_overflow
                         self Py.OverflowError H))).
Defined.

(** X22. [calculate_sensitivity] raises nothing but OverflowError.  When
    it raises, [d] and [d_dnu] are as before the call, while [d_dn1] may
    already hold the new value: the exception of line 82 comes after the
    assignment of line 80. *)
Theorem calculate_sensitivity_raises_only_overflow
    (self : calculator) (e : Py.exn) :
  snd (calculate_sensitivity self) = Py.Raise e ->
  e = Py.OverflowError
  /\ d (fst (calculate_sensitivity self)) = d self
  /\ d_dnu (fst (calculate_sensitivity self)) = d_dnu self.
Proof.
  unfold calculate_sensitivity.
  destruct (d_dn1_value self) as [v1|e1] eqn:E1.
  - destruct (d_dnu_value (set_d_dn1 self v1)) as [v2|e2] eqn:E2;
      cbn [fst snd]; [discriminate|].
    intros H; injection H as <-.
    repeat split. exact (d_dnu_value_raises _ _ E2).
  - cbn [fst snd]. intros H; injection H as <-.
    repeat split. exact (d_dn1_value_raises _ _ E1).
Qed.

Lemma calculate_sensitivity_raises_only_overflow_witness :
  let self := mk (of_Z 1) (of_Z 2) zero (dec 1 200) 1
                 (of_Z 1) (Int 1) None None None in
  snd (calculate_sensitivity self) = Py.Raise Py.OverflowError
  /\ d_dn1 (fst (calculate_sensitivity self))
     = Some (div (of_Z (-1)) (mul (of_Z 2) (dec 1 200)))
  /\ d (fst (calculate_sensitivity self)) = None
  /\ d_dnu (fst (calculate_sensitivity self)) = None.
Proof.
  intros self.
  assert (H : snd (calculate_sensitivity self) = Py.Raise Py.OverflowError)
    by (vm_compute; reflexivity).
  split; [exact H|]. split; [vm_compute; reflexivity|].
  exact (proj2 (calculate_sensitivity_raises_only_overflow
                  self Py.OverflowError H)).
Defined.

(** X23. Neither method changes an attribute set at construction,
    whether it returns or raises. *)
Theorem construction_attributes_kept (self : calculator) :
  let kept (s : calculator) :=
    n1 s = n1 self /\ n2 s = n2 self /\ theta0_deg s = theta0_deg self
    /\ nu_tilde s = nu_tilde self /\ m s = m self
    /\ cos_theta1 s = cos_theta1 self /\ k s = k self in
  kept (fst (calculate_thickness self))
  /\ kept (fst (calculate_sensitivity self)).
Proof.
  cbv zeta. split.
  - unfold calculate_thickness.
    destruct (thickness_value self); cbn; repeat split.
  - unfold calculate_sensitivity.
    destruct (d_dn1_value self) as [v1|e1]; [|cbn; repeat split].
    destruct (d_dnu_value (set_d_dn1 self v1)); cbn; repeat split.
Qed.

End Epi64Facts.

(** ** The angle sweep in binary64 *)

Section Sim64Facts.
Import SpecFloat B64 Sim64.






(** X25. With [theta_max = delta_theta = 0.1] the quotient that gives the
    length is 0.30000000000000004 / 0.1, above 3: the sweep has four
    angles and the last one, 0.20000000000000004, lies above
    [theta_max + delta_theta]. *)
Theorem sweep_rounding_adds_an_angle :
  sweep (dec 1 (-1)) (dec 1 (-1))
  = Py.Ok [neg (dec 1 (-1)); zero; dec 1 (-1);
           S754_finite false 7205759403792795 (-55)]
  /\ lt (dec 2 (-1)) (S754_finite false 7205759403792795 (-55)) = true.
Proof. split; vm_compute; reflexivity. Qed.

End Sim64Facts.
